(** * Entry-point invocation harness and resource statistics

    A shallow embedding of [tests/utils/cairo.py] ([run_program_entrypoint])
    and of the data pipeline of [scripts/check_resources.py] ([main]).

    The Cairo virtual machine, its builtin runners and the identifier table
    belong to the [starkware] package, not to this repository.  The harness
    only talks to them through a handful of methods; those that the harness
    relies on for their data flow are modelled below, the instruction
    semantics itself is a parameter ([CairoVM]). *)

From stdpp Require Import gmap strings list.
From Stdlib Require Import ZArith QArith Qround.

Local Open Scope string_scope.
Local Open Scope list_scope.
Local Open Scope Z_scope.

(** ** Machine words *)

(** [RelocatableValue(segment_index, offset)]: an address inside a segment. *)
Record RelocatableValue := mk_reloc { segment_index : Z; offset : Z }.

(** A memory cell or stack word holds a field element or an address. *)
Inductive MaybeRelocatable :=
| Int (z : Z)
| Reloc (r : RelocatableValue).

#[global] Instance RelocatableValue_eq_dec : EqDecision RelocatableValue.
Proof. solve_decision. Defined.

#[global] Instance MaybeRelocatable_eq_dec : EqDecision MaybeRelocatable.
Proof. solve_decision. Defined.

#[global] Instance RelocatableValue_countable : Countable RelocatableValue :=
  inj_countable' (λ r, (segment_index r, offset r))
                 (λ p, mk_reloc p.1 p.2)
                 (λ r, match r with mk_reloc _ _ => eq_refl end).

(** [RelocatableValue.__add__] with an integer on the right. *)
Definition reloc_add (r : RelocatableValue) (n : Z) : RelocatableValue :=
  mk_reloc (segment_index r) (offset r + n).

(** [MemoryDict]: a sparse memory, shared by the runner and the VM. *)
Abbreviation MemoryDict := (gmap RelocatableValue MaybeRelocatable).

(** ** Python values reaching the hint context *)

#[warnings="-register-all"]
Inductive PyVal :=
| PyNone
| PyBool (b : bool)
| PyInt (z : Z)
| PyStr (s : string)
| PyList (l : list PyVal)
| PyDict (d : list (PyVal * PyVal)).

(** Python truth value testing. *)
Definition truthy (v : PyVal) : bool :=
  match v with
  | PyNone => false
  | PyBool b => b
  | PyInt z => negb (Z.eqb z 0)
  | PyStr s => negb (String.eqb s "")
  | PyList l => negb (Nat.eqb (length l) 0)
  | PyDict d => negb (Nat.eqb (length d) 0)
  end.

(** [x or y]. *)
Definition py_or (x y : PyVal) : PyVal := if truthy x then x else y.

(** ** Programs *)

(** [ScopedName(path=...)]. *)
Abbreviation ScopedName := (list string).

Record Program := mk_program {
  builtins : list string;
  identifiers : gmap ScopedName Z;
  data : list MaybeRelocatable;
}.

(** ** Exceptions and results *)

Inductive Exception :=
| AssertionError (msg : string)
| AttributeError (msg : string)
| TypeError (msg : string)
| InconsistentMemoryError (addr : RelocatableValue)
| VmException (msg : string).

(** [OutOfFuel] is not a Python outcome: it marks a loop of the model that
    was cut before the Python loop would have stopped. *)
Inductive result (A : Type) :=
| Ok (a : A)
| Raise (e : Exception)
| OutOfFuel.

Arguments Ok {A} a.
Arguments Raise {A} e.
Arguments OutOfFuel {A}.

(** ** The virtual machine as the harness sees it *)

Record RunContext := mk_context {
  pc : RelocatableValue;
  ap : RelocatableValue;
  fp : RelocatableValue;
}.

Record VirtualMachine := mk_vm {
  run_context : RunContext;
  hint_locals : gmap string PyVal;
  current_step : nat;
}.

Record MemorySegmentManager := mk_segments { n_segments : Z }.

(** The engine behind the runner: what a builtin runner is, the builtins the
    runner knows, in the order of the calling convention, which runners a
    layout instantiates for a program, and how one instruction (with its
    hints) transforms registers, hint scope and memory.  What a hint does
    outside of these (printing, reading files or clocks) is not part of the
    model. *)
Class CairoVM := {
  BuiltinRunner : Type;
  supported_builtins : list string;
  layout_builtin_runners : string → Program → bool → list (string * BuiltinRunner);
  builtin_initialize_segments :
    BuiltinRunner → MemorySegmentManager → BuiltinRunner * MemorySegmentManager;
  initial_stack : BuiltinRunner → list MaybeRelocatable;
  step : Program → RunContext → gmap string PyVal → MemoryDict →
         Exception + (RunContext * gmap string PyVal * MemoryDict);
  check_used_cells : list (string * BuiltinRunner) → nat → Exception + bool;
  render_output : BuiltinRunner → MemoryDict → list string;
}.

(** [dict.get(key)] on an insertion-ordered dictionary. *)
Fixpoint dict_get {V : Type} (key : string) (d : list (string * V)) : option V :=
  match d with
  | [] => None
  | (k, v) :: rest => if String.eqb k key then Some v else dict_get key rest
  end.

(** [is_subsequence(subsequence, sequence)]: the items of the first list
    occur in the second one, in the same order. *)
Fixpoint is_subsequence (subsequence sequence : list string) : bool :=
  match sequence with
  | [] =>
      match subsequence with
      | [] => true
      | _ :: _ => false
      end
  | y :: sequence' =>
      match subsequence with
      | [] => true
      | x :: subsequence' =>
          if String.eqb x y
          then is_subsequence subsequence' sequence'
          else is_subsequence subsequence sequence'
      end
  end.

Section Harness.
Context `{CairoVM}.

(** ** The runner object *)

Record CairoRunner := mk_runner {
  program : Program;
  layout : string;
  memory : MemoryDict;
  proof_mode : bool;
  allow_missing_builtins : bool;
  builtin_runners : list (string * BuiltinRunner);
  segments : MemorySegmentManager;
  program_base : option RelocatableValue;
  execution_base : option RelocatableValue;
  initial_pc : option RelocatableValue;
  initial_ap : option RelocatableValue;
  initial_fp : option RelocatableValue;
  final_pc : option RelocatableValue;
  vm : option VirtualMachine;
  original_steps : option nat;
  run_ended : bool;
}.

(** What a call can touch: its runner and the standard output. *)
Record World := mk_world {
  runner : CairoRunner;
  stdout : list string;
}.

Definition set_memory (m : MemoryDict) (r : CairoRunner) : CairoRunner :=
  mk_runner (program r) (layout r) m (proof_mode r) (allow_missing_builtins r)
    (builtin_runners r) (segments r) (program_base r) (execution_base r)
    (initial_pc r) (initial_ap r) (initial_fp r) (final_pc r) (vm r)
    (original_steps r) (run_ended r).

Definition set_builtin_runners (b : list (string * BuiltinRunner)) (r : CairoRunner) : CairoRunner :=
  mk_runner (program r) (layout r) (memory r) (proof_mode r) (allow_missing_builtins r)
    b (segments r) (program_base r) (execution_base r)
    (initial_pc r) (initial_ap r) (initial_fp r) (final_pc r) (vm r)
    (original_steps r) (run_ended r).

Definition set_segments (s : MemorySegmentManager) (r : CairoRunner) : CairoRunner :=
  mk_runner (program r) (layout r) (memory r) (proof_mode r) (allow_missing_builtins r)
    (builtin_runners r) s (program_base r) (execution_base r)
    (initial_pc r) (initial_ap r) (initial_fp r) (final_pc r) (vm r)
    (original_steps r) (run_ended r).

Definition set_program_base (a : option RelocatableValue) (r : CairoRunner) : CairoRunner :=
  mk_runner (program r) (layout r) (memory r) (proof_mode r) (allow_missing_builtins r)
    (builtin_runners r) (segments r) a (execution_base r)
    (initial_pc r) (initial_ap r) (initial_fp r) (final_pc r) (vm r)
    (original_steps r) (run_ended r).

Definition set_execution_base (a : option RelocatableValue) (r : CairoRunner) : CairoRunner :=
  mk_runner (program r) (layout r) (memory r) (proof_mode r) (allow_missing_builtins r)
    (builtin_runners r) (segments r) (program_base r) a
    (initial_pc r) (initial_ap r) (initial_fp r) (final_pc r) (vm r)
    (original_steps r) (run_ended r).

Definition set_initial_pc (a : option RelocatableValue) (r : CairoRunner) : CairoRunner :=
  mk_runner (program r) (layout r) (memory r) (proof_mode r) (allow_missing_builtins r)
    (builtin_runners r) (segments r) (program_base r) (execution_base r)
    a (initial_ap r) (initial_fp r) (final_pc r) (vm r)
    (original_steps r) (run_ended r).

Definition set_initial_ap (a : option RelocatableValue) (r : CairoRunner) : CairoRunner :=
  mk_runner (program r) (layout r) (memory r) (proof_mode r) (allow_missing_builtins r)
    (builtin_runners r) (segments r) (program_base r) (execution_base r)
    (initial_pc r) a (initial_fp r) (final_pc r) (vm r)
    (original_steps r) (run_ended r).

Definition set_initial_fp (a : option RelocatableValue) (r : CairoRunner) : CairoRunner :=
  mk_runner (program r) (layout r) (memory r) (proof_mode r) (allow_missing_builtins r)
    (builtin_runners r) (segments r) (program_base r) (execution_base r)
    (initial_pc r) (initial_ap r) a (final_pc r) (vm r)
    (original_steps r) (run_ended r).

Definition set_final_pc (a : option RelocatableValue) (r : CairoRunner) : CairoRunner :=
  mk_runner (program r) (layout r) (memory r) (proof_mode r) (allow_missing_builtins r)
    (builtin_runners r) (segments r) (program_base r) (execution_base r)
    (initial_pc r) (initial_ap r) (initial_fp r) a (vm r)
    (original_steps r) (run_ended r).

Definition set_vm (v : option VirtualMachine) (r : CairoRunner) : CairoRunner :=
  mk_runner (program r) (layout r) (memory r) (proof_mode r) (allow_missing_builtins r)
    (builtin_runners r) (segments r) (program_base r) (execution_base r)
    (initial_pc r) (initial_ap r) (initial_fp r) (final_pc r) v
    (original_steps r) (run_ended r).

Definition set_original_steps (n : option nat) (r : CairoRunner) : CairoRunner :=
  mk_runner (program r) (layout r) (memory r) (proof_mode r) (allow_missing_builtins r)
    (builtin_runners r) (segments r) (program_base r) (execution_base r)
    (initial_pc r) (initial_ap r) (initial_fp r) (final_pc r) (vm r)
    n (run_ended r).

Definition set_run_ended (b : bool) (r : CairoRunner) : CairoRunner :=
  mk_runner (program r) (layout r) (memory r) (proof_mode r) (allow_missing_builtins r)
    (builtin_runners r) (segments r) (program_base r) (execution_base r)
    (initial_pc r) (initial_ap r) (initial_fp r) (final_pc r) (vm r)
    (original_steps r) b.

(** ** Statements: state passing with exceptions

    A raised exception keeps the world as it was when it was raised, as a
    Python exception leaves the objects mutated so far. *)

Definition M (A : Type) : Type := World → result A * World.

#[global] Instance M_ret : MRet M := λ A a w, (Ok a, w).

#[global] Instance M_bind : MBind M := λ A B f m w,
  match m w with
  | (Ok a, w') => f a w'
  | (Raise e, w') => (Raise e, w')
  | (OutOfFuel, w') => (OutOfFuel, w')
  end.

Definition raise {A : Type} (e : Exception) : M A := λ w, (Raise e, w).

Definition out_of_fuel {A : Type} : M A := λ w, (OutOfFuel, w).

Definition get_runner : M CairoRunner := λ w, (Ok (runner w), w).

Definition modify_runner (f : CairoRunner → CairoRunner) : M unit :=
  λ w, (Ok tt, mk_world (f (runner w)) (stdout w)).

(** [print], one string per line. *)
Definition print (lines : list string) : M unit :=
  λ w, (Ok tt, mk_world (runner w) (stdout w ++ lines)).

(** Reading an attribute that still holds [None] where an address is needed. *)
Definition expect_address (what : string) (o : option RelocatableValue) : M RelocatableValue :=
  match o with
  | Some a => mret a
  | None => raise (TypeError what)
  end.

(** [runner.vm], once [initialize_vm] has created it. *)
Definition get_vm : M VirtualMachine :=
  r ← get_runner;
  match vm r with
  | Some v => mret v
  | None => raise (TypeError "vm")
  end.

(** ** Runner methods used by the harness *)

(** The name under which the runner of a builtin is looked up. *)
Definition runner_key (builtin_name : string) : string := builtin_name +:+ "_builtin".

(** The builtin has a runner in the dictionary. *)
Definition has_runner (brs : list (string * BuiltinRunner)) (builtin_name : string) : bool :=
  match dict_get (runner_key builtin_name) brs with
  | Some _ => true
  | None => false
  end.

(** The runner that [CairoRunner(program=..., layout=..., memory=MemoryDict(),
    proof_mode=..., allow_missing_builtins=...)] returns when it accepts the
    program: a runner over an empty memory, with the builtin runners its
    layout instantiates for the program. *)
Definition new_runner (p : Program) (lay : string) (proof allow_missing : bool) : CairoRunner :=
  mk_runner p lay ∅ proof allow_missing
    (layout_builtin_runners lay p proof) (mk_segments 0)
    None None None None None None None None false.

(** The object of a construction that is refused: it has no builtin runner
    and no segment yet, and it is never bound to [runner]. *)
Definition unbuilt_runner (p : Program) (lay : string) (proof allow_missing : bool)
    : CairoRunner :=
  mk_runner p lay ∅ proof allow_missing [] (mk_segments 0)
    None None None None None None None None false.

(** Modelled from the spec: a declared builtin without a runner, while
    missing builtins are disallowed, is a configuration error that is
    surfaced immediately; the declared builtins are ordered as the calling
    convention requires.  The constructor of the runner makes both checks,
    with assertions, before it creates any builtin runner. *)
Definition construct_runner (p : Program) (lay : string) (proof allow_missing : bool)
    : Exception + CairoRunner :=
  if negb allow_missing
     && negb (forallb (has_runner (layout_builtin_runners lay p proof)) (builtins p))
  then inl (AssertionError "Builtins are not present in layout.")
  else if negb (is_subsequence (builtins p) supported_builtins)
  then inl (AssertionError "The builtins must be a subsequence of the supported builtins.")
  else inr (new_runner p lay proof allow_missing).

(** Modelled from the spec: [allocate_segment() -> SegmentId] reserves a
    fresh memory region; the runner's [segments.add()] numbers the regions
    and returns the address of the first cell of the new one. *)
Definition segments_add : M RelocatableValue :=
  r ← get_runner;
  let n := n_segments (segments r) in
  modify_runner (set_segments (mk_segments (n + 1)));;
  mret (mk_reloc n 0).

(** Each builtin runner reserves its own region, in dictionary order. *)
Fixpoint initialize_builtin_segments (brs : list (string * BuiltinRunner))
    (s : MemorySegmentManager) : list (string * BuiltinRunner) * MemorySegmentManager :=
  match brs with
  | [] => ([], s)
  | (k, b) :: rest =>
      let '(b', s') := builtin_initialize_segments b s in
      let '(rest', s'') := initialize_builtin_segments rest s' in
      ((k, b') :: rest', s'')
  end.

(** Modelled from the spec: [runner.initialize_segments()] allocates the
    program segment and the execution segment, records their bases, and lets
    the builtin runners allocate theirs.  No memory cell is written. *)
Definition initialize_segments : M unit :=
  pb ← segments_add;
  modify_runner (set_program_base (Some pb));;
  eb ← segments_add;
  modify_runner (set_execution_base (Some eb));;
  r ← get_runner;
  let '(brs, s) := initialize_builtin_segments (builtin_runners r) (segments r) in
  modify_runner (λ r, set_segments s (set_builtin_runners brs r)).

(** Modelled from the spec: [write(address, value)] over a write-once
    memory; writing a different value to a written cell is an error. *)
Definition memory_write (addr : RelocatableValue) (v : MaybeRelocatable) : M unit :=
  r ← get_runner;
  match memory r !! addr with
  | Some v' => if decide (v' = v) then mret tt else raise (InconsistentMemoryError addr)
  | None => modify_runner (set_memory (<[addr := v]> (memory r)))
  end.

(** [runner.load_data(ptr, data)]: consecutive writes starting at [ptr]. *)
Fixpoint load_data (ptr : RelocatableValue) (words : list MaybeRelocatable) : M unit :=
  match words with
  | [] => mret tt
  | v :: rest => memory_write ptr v;; load_data (reloc_add ptr 1) rest
  end.

(** Modelled from the spec: [resolve_identifier(qualified_name) -> address]
    fails if the name is absent from the identifier table.  This is
    [program.identifiers.get_by_full_name(name).pc]: the lookup yields [None]
    for an absent name, and reading [pc] from [None] raises. *)
Definition get_by_full_name_pc (p : Program) (name : ScopedName) : M Z :=
  match identifiers p !! name with
  | Some a => mret a
  | None => raise (AttributeError "'NoneType' object has no attribute 'pc'")
  end.

(** Modelled from the spec: [runner.initialize_state(entrypoint, stack)] sets
    the initial program counter to the code address of the entry point (its
    offset in the program segment), loads the program and writes the stack
    into the execution segment starting at its base. *)
Definition initialize_state (entrypoint : Z) (stack : list MaybeRelocatable) : M unit :=
  r ← get_runner;
  pb ← expect_address "program_base" (program_base r);
  modify_runner (set_initial_pc (Some (reloc_add pb entrypoint)));;
  load_data pb (data (program r));;
  eb ← expect_address "execution_base" (execution_base r);
  load_data eb stack.

(** Modelled from the spec: [runner.initialize_vm(hint_locals)] creates the
    VM with the initial registers ([initialize_registers(pc, fp, ap)]) and
    binds [hint_locals] in the hint-evaluation context. *)
Definition initialize_vm (locals : gmap string PyVal) : M unit :=
  r ← get_runner;
  p ← expect_address "initial_pc" (initial_pc r);
  a ← expect_address "initial_ap" (initial_ap r);
  f ← expect_address "initial_fp" (initial_fp r);
  modify_runner (set_vm (Some (mk_vm (mk_context p a f) locals 0))).

(** [runner.vm_step()]: one instruction of the engine, counted. *)
Definition vm_step : M unit :=
  r ← get_runner;
  v ← get_vm;
  match step (program r) (run_context v) (hint_locals v) (memory r) with
  | inl e => raise e
  | inr (ctx, locals, mem) =>
      modify_runner (λ r, set_vm (Some (mk_vm ctx locals (S (current_step v))))
                                 (set_memory mem r))
  end.

(** Modelled from the spec: [run_until(pc == target)] single-steps the VM
    until its program counter equals the target.  The Python loop has no
    bound; [fuel] bounds the model's. *)
Fixpoint run_until_pc (fuel : nat) (addr : RelocatableValue) : M unit :=
  v ← get_vm;
  if decide (pc (run_context v) = addr) then mret tt
  else match fuel with
       | O => out_of_fuel
       | S fuel' => vm_step;; run_until_pc fuel' addr
       end.

(** Modelled from the spec: padding the execution trace to the boundary
    length the builtins require: step until the engine accepts the length. *)
Fixpoint pad_trace (fuel : nat) : M unit :=
  r ← get_runner;
  v ← get_vm;
  match check_used_cells (builtin_runners r) (current_step v) with
  | inl e => raise e
  | inr true => mret tt
  | inr false =>
      match fuel with
      | O => out_of_fuel
      | S fuel' => vm_step;; pad_trace fuel'
      end
  end.

(** Modelled from the spec: [runner.end_run(disable_trace_padding)] does the
    end-of-run bookkeeping: it decides whether to pad the trace (only a
    runner in proof mode pads) and skips padding entirely when it is
    disabled.  A run is ended once.  Other failures of the bookkeeping are
    not part of the model. *)
Definition end_run (fuel : nat) (disable_trace_padding : bool) : M unit :=
  r ← get_runner;
  if run_ended r then raise (AssertionError "end_run called twice.")
  else
    (if proof_mode r && negb disable_trace_padding then pad_trace fuel else mret tt);;
    modify_runner (set_run_ended true).

(** Modelled from the spec: [runner.print_output()] renders the cells of the
    output builtin, when the program has one. *)
Definition print_output : M unit :=
  r ← get_runner;
  match dict_get "output_builtin" (builtin_runners r) with
  | None => mret tt
  | Some o => print ("Program output:" :: render_output o (memory r))
  end.

(** ** [run_program_entrypoint] *)

(** Lines 17-23: the loop over [runner.program.builtins], appending to
    [stack]. *)
Fixpoint builtin_stack (names : list string) (stack : list MaybeRelocatable)
    : M (list MaybeRelocatable) :=
  match names with
  | [] => mret stack
  | builtin_name :: rest =>
      r ← get_runner;
      match dict_get (builtin_name +:+ "_builtin") (builtin_runners r) with
      | None =>
          if allow_missing_builtins r
          then builtin_stack rest (stack ++ [Int 0])
          else raise (AssertionError "Missing builtin.")
      | Some builtin_runner =>
          builtin_stack rest (stack ++ initial_stack builtin_runner)
      end
  end.

(** Lines 16-27: the stack, and the end sentinel as its last word. *)
Definition build_stack : M (list MaybeRelocatable * RelocatableValue) :=
  r ← get_runner;
  stack ← builtin_stack (builtins (program r)) [];
  return_fp ← segments_add;
  end_ ← segments_add;
  mret (stack ++ [Reloc return_fp; Reloc end_], end_).

(** The value bound to ["program_input"]: [program_input or {}], with
    [None] as the default of the parameter. *)
Definition hint_locals_of (program_input : option PyVal) : gmap string PyVal :=
  {[ "program_input" := py_or (default PyNone program_input) (PyDict []) ]}.

(** Lines 15-38, on the runner of lines 7-13: everything before the run.
    The entry point is resolved while the arguments of [initialize_state]
    are evaluated, that is before [initialize_state] runs. *)
Definition setup (p : Program) (entrypoint : string) (program_input : option PyVal)
    : M (list MaybeRelocatable * RelocatableValue) :=
  initialize_segments;;
  '(stack, end_) ← build_stack;
  entry ← get_by_full_name_pc p ["__main__"; entrypoint];
  initialize_state entry stack;;
  r ← get_runner;
  eb ← expect_address "execution_base" (execution_base r);
  let top := reloc_add eb (Z.of_nat (length stack)) in
  modify_runner (set_initial_fp (Some top));;
  modify_runner (set_initial_ap (Some top));;
  modify_runner (set_final_pc (Some end_));;
  initialize_vm (hint_locals_of program_input);;
  mret (stack, end_).

(** Lines 39-42: drive the VM to the end sentinel, then finalize. *)
Definition run_and_finalize (fuel : nat) (end_ : RelocatableValue) : M unit :=
  run_until_pc fuel end_;;
  v ← get_vm;
  modify_runner (set_original_steps (Some (current_step v)));;
  end_run fuel false;;
  print_output.

(** The whole function, called while the standard output holds [out]:
    lines 7-13 construct the runner, or fail, and the rest runs on it. *)
Definition run_program_entrypoint (fuel : nat) (p : Program) (entrypoint : string)
    (program_input : option PyVal) (out : list string) : result unit * World :=
  match construct_runner p "small" false false with
  | inl e => (Raise e, mk_world (unbuilt_runner p "small" false false) out)
  | inr runner =>
      ('(_, end_) ← setup p entrypoint program_input;
       run_and_finalize fuel end_)
      (mk_world runner out)
  end.


(** ** Vocabulary for the statements *)

(** The world in which lines 15-42 of [run_program_entrypoint] start, once
    the runner is constructed. *)
Definition fresh_world (p : Program) (out : list string) : World :=
  mk_world (new_runner p "small" false false) out.

(** The words a declared builtin contributes to the stack. *)
Definition contribution (brs : list (string * BuiltinRunner)) (builtin_name : string)
    : list MaybeRelocatable :=
  match dict_get (runner_key builtin_name) brs with
  | Some builtin_runner => initial_stack builtin_runner
  | None => [Int 0]
  end.

(** The memory after [load_data], when no write is refused. *)
Fixpoint load_mem (ptr : RelocatableValue) (words : list MaybeRelocatable)
    (m : MemoryDict) : MemoryDict :=
  match words with
  | [] => m
  | v :: rest => load_mem (reloc_add ptr 1) rest (<[ptr := v]> m)
  end.

(** The runner of lines 7-13 after [initialize_segments]. *)
Definition segmented_runner (p : Program) : CairoRunner :=
  let init := initialize_builtin_segments (layout_builtin_runners "small" p false)
                                          (mk_segments 2) in
  mk_runner p "small" ∅ false false init.1 init.2
    (Some (mk_reloc 0 0)) (Some (mk_reloc 1 0))
    None None None None None None false.

(** What stepping the VM may change in a runner: its VM and its memory. *)
Definition stepped (r r' : CairoRunner) : Prop :=
  r' = set_vm (vm r') (set_memory (memory r') r).

End Harness.

(** ** A small engine, for examples

    Builtin runners that own one segment each and contribute its base when
    the program declares them, the builtins of the ["small"] layout, and a
    machine that knows one instruction, [ret]. *)

Record SimpleBuiltinRunner := mk_builtin {
  included : bool;
  base : option RelocatableValue;
}.

Definition small_layout : list string :=
  ["output"; "pedersen"; "range_check"; "ecdsa"].

Definition simple_layout_builtin_runners (lay : string) (p : Program) (proof : bool)
    : list (string * SimpleBuiltinRunner) :=
  flat_map (λ name,
    let declared := bool_decide (name ∈ builtins p) in
    if declared || proof
    then [(name +:+ "_builtin", mk_builtin declared None)]
    else []) small_layout.

Definition simple_initialize_segments (b : SimpleBuiltinRunner) (s : MemorySegmentManager)
    : SimpleBuiltinRunner * MemorySegmentManager :=
  (mk_builtin (included b) (Some (mk_reloc (n_segments s) 0)),
   mk_segments (n_segments s + 1)).

Definition simple_initial_stack (b : SimpleBuiltinRunner) : list MaybeRelocatable :=
  if included b
  then match base b with
       | Some a => [Reloc a]
       | None => []
       end
  else [].

(** The encoding of [ret]. *)
Definition ret_instruction : Z := 2345108766317314046.

(** [ret] jumps to the word below the frame pointer and restores the frame
    pointer from the word below that one. *)
Definition simple_step (p : Program) (ctx : RunContext) (locals : gmap string PyVal)
    (mem : MemoryDict) : Exception + (RunContext * gmap string PyVal * MemoryDict) :=
  match mem !! pc ctx with
  | Some (Int i) =>
      if Z.eqb i ret_instruction
      then match mem !! reloc_add (fp ctx) (-1), mem !! reloc_add (fp ctx) (-2) with
           | Some (Reloc new_pc), Some (Reloc new_fp) =>
               inr (mk_context new_pc (ap ctx) new_fp, locals, mem)
           | _, _ => inl (VmException "ret: no return frame")
           end
      else inl (VmException "unknown instruction")
  | _ => inl (VmException "no instruction at pc")
  end.

Definition simple_check_used_cells (brs : list (string * SimpleBuiltinRunner))
    (steps : nat) : Exception + bool :=
  inr (Nat.eqb (steps mod 4) 0).

Definition simple_render_output (b : SimpleBuiltinRunner) (mem : MemoryDict) : list string :=
  match base b with
  | Some a =>
      match mem !! a with
      | Some _ => ["  <cell>"]
      | None => []
      end
  | None => []
  end.

Definition simple_vm : CairoVM := {|
  BuiltinRunner := SimpleBuiltinRunner;
  supported_builtins :=
    ["output"; "pedersen"; "range_check"; "ecdsa"; "bitwise"; "ec_op"; "keccak"; "poseidon"];
  layout_builtin_runners := simple_layout_builtin_runners;
  builtin_initialize_segments := simple_initialize_segments;
  initial_stack := simple_initial_stack;
  step := simple_step;
  check_used_cells := simple_check_used_cells;
  render_output := simple_render_output;
|}.

(** A program whose [main] returns at once. *)
Definition ret_program (declared : list string) : Program :=
  mk_program declared {[ ["__main__"; "main"] := 0 ]} [Int ret_instruction].

(** ** The statistics script, [scripts/check_resources.py]

    A line of a [resources.csv] file: the name of a test and its numeric
    measurements, one per remaining column. *)

Record CsvRow := mk_csv_row {
  csv_test : string;
  csv_values : list Z;
}.

(** A row of the data frames built by [main]. *)
Record Row := mk_row {
  head_branch : string;
  test : string;
  values : list Z;
}.

Abbreviation DataFrame := (list Row).

Inductive ScriptError :=
| FileNotFoundError (branch : string)
| ValueError (msg : string).

(** [pd.read_csv(...).assign(head_branch=b)]. *)
Definition assign_head_branch (b : string) (csv : list CsvRow) : DataFrame :=
  map (λ c, mk_row b (csv_test c) (csv_values c)) csv.

(** Lines 27-34: one frame per artifact, read from the directory of its
    branch. *)
Fixpoint read_resources (read_csv : string → option (list CsvRow))
    (artifacts : list string) : ScriptError + list DataFrame :=
  match artifacts with
  | [] => inr []
  | b :: rest =>
      match read_csv b with
      | None => inl (FileNotFoundError b)
      | Some csv =>
          match read_resources read_csv rest with
          | inl e => inl e
          | inr frames => inr (assign_head_branch b csv :: frames)
          end
      end
  end.

(** [pd.concat(frames)]; pandas refuses an empty list of frames. *)
Definition pd_concat (frames : list DataFrame) : ScriptError + DataFrame :=
  match frames with
  | [] => inl (ValueError "No objects to concatenate")
  | _ => inr (concat frames)
  end.

(** The columns [drop_duplicates] compares. *)
Definition subset_key (r : Row) : string * string := (head_branch r, test r).

Definition occurrences (k : string * string) (df : DataFrame) : nat :=
  length (filter (λ r, subset_key r = k) df).

(** [df.drop_duplicates(["head_branch", "test"], keep=False)]. *)
Definition drop_duplicates (df : DataFrame) : DataFrame :=
  filter (λ r, occurrences (subset_key r) df = 1%nat) df.

(** Lines 44-50; [set_index] only changes how the rows are addressed. *)
Definition all_resources (frames : list DataFrame) : ScriptError + DataFrame :=
  match pd_concat frames with
  | inl e => inl e
  | inr df => inr (drop_duplicates df)
  end.

Definition column (j : nat) (rows : DataFrame) : list Z :=
  map (λ r, nth j (values r) 0) rows.

(** The mean of a column, as the exact rational; pandas computes it in
    floating point. *)
Definition mean (xs : list Z) : Q :=
  (inject_Z (fold_right Z.add 0%Z xs) / inject_Z (Z.of_nat (length xs)))%Q.

(** Rounding to the nearest integer, ties to the even one. *)
Definition round_half_even (q : Q) : Z :=
  let f := Qfloor q in
  match (q - inject_Z f ?= 1 # 2)%Q with
  | Lt => f
  | Gt => f + 1
  | Eq => if Z.even f then f else f + 1
  end.

(** [.round(2)], on the exact rational. *)
Definition round2 (q : Q) : Q :=
  (inject_Z (round_half_even (q * 100)) / 100)%Q.

Definition width (rows : DataFrame) : nat :=
  match rows with
  | [] => 0%nat
  | r :: _ => length (values r)
  end.

(** The rounded mean of every measurement column of a group. *)
Definition group_means (rows : DataFrame) : list Q :=
  map (λ j, round2 (mean (column j rows))) (seq 0 (width rows)).

(** Line 51: [groupby(level="head_branch").agg("mean").round(2)], as a map
    from branch to the means of its rows. *)
Definition average_summary (df : DataFrame) : gmap string (list Q) :=
  list_to_map
    (map (λ b, (b, group_means (filter (λ r, head_branch r = b) df)))
         (map head_branch df)).

(** Lines 24-42: [artifacts] are the [head_branch] entries of the records
    that [get_artifacts] returns, [read_csv b] the content of
    [resources/b/resources.csv], [local_csv] that of [resources/resources.csv]
    when the file exists. *)
Definition resources (artifacts : list string) (read_csv : string → option (list CsvRow))
    (local_csv : option (list CsvRow)) : ScriptError + list DataFrame :=
  match read_resources read_csv artifacts with
  | inl e => inl e
  | inr frames =>
      match local_csv with
      | Some csv => inr (frames ++ [assign_head_branch "local" csv])
      | None => inr frames
      end
  end.

(** [main]; the result is the logged summary. *)
Definition main (artifacts : list string) (read_csv : string → option (list CsvRow))
    (local_csv : option (list CsvRow)) : ScriptError + gmap string (list Q) :=
  match resources artifacts read_csv local_csv with
  | inl e => inl e
  | inr frames =>
      match all_resources frames with
      | inl e => inl e
      | inr df => inr (average_summary df)
      end
  end.

(** Two data sets with the same keys row by row, and the same measurements
    in every row whose key occurs once. *)
Definition agree_outside_duplicates (df df' : DataFrame) : Prop :=
  Forall2 (λ r r', subset_key r = subset_key r'
                   ∧ (occurrences (subset_key r) df = 1%nat → values r = values r'))
          df df'.

(** ** Inputs for the examples *)

Definition range_check_program : Program := ret_program ["range_check"].

Definition segmented_example : @World simple_vm :=
  mk_world (@segmented_runner simple_vm range_check_program) [].

Definition lenient_example : @World simple_vm :=
  (@initialize_segments simple_vm
     (mk_world (@new_runner simple_vm (ret_program ["range_check"; "bitwise"; "ec_op"])
                            "small" false true) [])).2.

Definition ready_example : @World simple_vm :=
  (@setup simple_vm range_check_program "main" None
          (@fresh_world simple_vm range_check_program [])).2.

Definition example_csv (b : string) : option (list CsvRow) :=
  if String.eqb b "main"
  then Some [mk_csv_row "test_add" [100; 7]; mk_csv_row "test_mul" [300; 9];
             mk_csv_row "test_add" [999; 1]]
  else None.

Definition example_local_csv : list CsvRow :=
  [mk_csv_row "test_add" [150; 8]; mk_csv_row "test_mul" [301; 9]].

(** * Properties of [run_program_entrypoint] *)

Section HarnessProofs.
Context `{CairoVM}.

Lemma world_eta (w : World) : mk_world (runner w) (stdout w) = w.
Proof. by destruct w. Qed.

Lemma bind_ok {A B : Type} (m : M A) (f : A → M B) w a w' :
  m w = (Ok a, w') → (m ≫= f) w = f a w'.
Proof. intros E. unfold mbind, M_bind. by rewrite E. Qed.

Lemma bind_raise {A B : Type} (m : M A) (f : A → M B) w e w' :
  m w = (Raise e, w') → (m ≫= f) w = (Raise e, w').
Proof. intros E. unfold mbind, M_bind. by rewrite E. Qed.

Lemma bind_inv_ok {A B : Type} (m : M A) (f : A → M B) w b w' :
  (m ≫= f) w = (Ok b, w') → ∃ a w1, m w = (Ok a, w1) ∧ f a w1 = (Ok b, w').
Proof.
  unfold mbind, M_bind. destruct (m w) as [[a|e|] w1]; intros E; try discriminate.
  eauto.
Qed.

Lemma builtin_stack_eq (names : list string) : ∀ stack w,
  builtin_stack names stack w =
  (if allow_missing_builtins (runner w)
      || forallb (has_runner (builtin_runners (runner w))) names
   then Ok (stack ++ concat (map (contribution (builtin_runners (runner w))) names))
   else Raise (AssertionError "Missing builtin."), w).
Proof.
  induction names as [|b names IH]; intros stack w; simpl.
  - rewrite orb_true_r, app_nil_r. reflexivity.
  - unfold mbind, M_bind, get_runner, has_runner, contribution, runner_key; simpl.
    destruct (dict_get (b +:+ "_builtin") (builtin_runners (runner w))) as [br|] eqn:E.
    + rewrite IH. simpl. rewrite <- app_assoc. reflexivity.
    + destruct (allow_missing_builtins (runner w)) eqn:Ea.
      * rewrite IH, Ea. simpl. rewrite <- app_assoc. reflexivity.
      * reflexivity.
Qed.

Lemma segments_add_eq w :
  segments_add w =
  (Ok (mk_reloc (n_segments (segments (runner w))) 0),
   mk_world (set_segments (mk_segments (n_segments (segments (runner w)) + 1)) (runner w))
            (stdout w)).
Proof. reflexivity. Qed.

Lemma build_stack_eq w :
  build_stack w =
  let r := runner w in
  let n := n_segments (segments r) in
  if allow_missing_builtins r || forallb (has_runner (builtin_runners r)) (builtins (program r))
  then (Ok (concat (map (contribution (builtin_runners r)) (builtins (program r)))
            ++ [Reloc (mk_reloc n 0); Reloc (mk_reloc (n + 1) 0)],
            mk_reloc (n + 1) 0),
        mk_world (set_segments (mk_segments (n + 1 + 1)) r) (stdout w))
  else (Raise (AssertionError "Missing builtin."), w).
Proof.
  unfold build_stack. unfold mbind at 1, M_bind at 1, get_runner.
  unfold mbind at 1, M_bind at 1. rewrite builtin_stack_eq.
  destruct (_ || _); reflexivity.
Qed.

Lemma initialize_builtin_segments_keys (brs : list (string * BuiltinRunner)) :
  ∀ s key, is_Some (dict_get key (initialize_builtin_segments brs s).1)
           ↔ is_Some (dict_get key brs).
Proof.
  induction brs as [|[k b] brs IH]; intros s key; simpl; [done|].
  destruct (builtin_initialize_segments b s) as [b' s'].
  specialize (IH s' key).
  destruct (initialize_builtin_segments brs s') as [rest' s'']. simpl in *.
  destruct (String.eqb k key); [|done].
  split; intros _; eauto.
Qed.

Lemma has_runner_initialize brs s name :
  has_runner (initialize_builtin_segments brs s).1 name = has_runner brs name.
Proof.
  unfold has_runner.
  pose proof (initialize_builtin_segments_keys brs s (runner_key name)) as [H1 H2].
  destruct (dict_get _ (initialize_builtin_segments brs s).1) eqn:E1;
    destruct (dict_get _ brs) eqn:E2; try done.
  - destruct H1 as [? ?]; [eauto|done].
  - destruct H2 as [? ?]; [eauto|done].
Qed.

Lemma initialize_segments_fresh p out :
  initialize_segments (fresh_world p out) = (Ok tt, mk_world (segmented_runner p) out).
Proof.
  unfold initialize_segments, fresh_world, segmented_runner, new_runner.
  unfold mbind, M_bind, segments_add, get_runner, modify_runner, mret, M_ret. simpl.
  destruct (initialize_builtin_segments _ _) as [brs s]. reflexivity.
Qed.

Lemma load_mem_other_segment words : ∀ ptr (m : MemoryDict) a,
  segment_index a ≠ segment_index ptr → load_mem ptr words m !! a = m !! a.
Proof.
  induction words as [|v words IH]; intros ptr m a Hne; simpl; [done|].
  rewrite IH by done. apply lookup_insert_ne. intros ->. done.
Qed.

Lemma load_mem_below words : ∀ ptr (m : MemoryDict) a,
  offset a < offset ptr → load_mem ptr words m !! a = m !! a.
Proof.
  induction words as [|v words IH]; intros ptr m a Hlt; simpl; [done|].
  rewrite IH by (simpl; lia). apply lookup_insert_ne. intros ->. lia.
Qed.

Lemma load_mem_lookup words : ∀ ptr (m : MemoryDict) (i : nat),
  (i < length words)%nat →
  load_mem ptr words m !! reloc_add ptr (Z.of_nat i) = words !! i.
Proof.
  induction words as [|v words IH]; intros ptr m i Hi; simpl in *; [lia|].
  destruct i as [|i].
  - rewrite load_mem_below by (simpl; lia).
    replace (reloc_add ptr (Z.of_nat 0)) with ptr
      by (destruct ptr; unfold reloc_add; simpl; f_equal; lia).
    apply lookup_insert_eq.
  - replace (reloc_add ptr (Z.of_nat (S i))) with (reloc_add (reloc_add ptr 1) (Z.of_nat i))
      by (destruct ptr; unfold reloc_add; simpl; f_equal; lia).
    apply IH. lia.
Qed.

Lemma memory_write_fresh ptr v w :
  memory (runner w) !! ptr = None →
  memory_write ptr v w =
  (Ok tt, mk_world (set_memory (<[ptr := v]> (memory (runner w))) (runner w)) (stdout w)).
Proof.
  intros E. unfold memory_write, mbind, M_bind, get_runner. rewrite E. reflexivity.
Qed.

Lemma load_data_fresh words : ∀ ptr w,
  (∀ a, segment_index a = segment_index ptr → offset ptr ≤ offset a →
        memory (runner w) !! a = None) →
  load_data ptr words w =
  (Ok tt, mk_world (set_memory (load_mem ptr words (memory (runner w))) (runner w))
                   (stdout w)).
Proof.
  induction words as [|v words IH]; intros ptr w Hfresh; simpl.
  - destruct w as [[] ?]; reflexivity.
  - erewrite bind_ok; [|apply memory_write_fresh, Hfresh; (done || lia)].
    rewrite IH; [reflexivity|].
    intros a Hs Ho. simpl in *. rewrite lookup_insert_ne.
    + apply Hfresh; [done|lia].
    + intros ->. lia.
Qed.

Lemma setup_eq p e pi out :
  setup p e pi (fresh_world p out) =
  let r := segmented_runner p in
  let n := n_segments (segments r) in
  let stack := concat (map (contribution (builtin_runners r)) (builtins p))
               ++ [Reloc (mk_reloc n 0); Reloc (mk_reloc (n + 1) 0)] in
  let entry_pc z := reloc_add (mk_reloc 0 0) z in
  let top := reloc_add (mk_reloc 1 0) (Z.of_nat (length stack)) in
  if forallb (has_runner (builtin_runners r)) (builtins p) then
    match identifiers p !! ["__main__"; e] with
    | Some entry =>
        (Ok (stack, mk_reloc (n + 1) 0),
         mk_world
           (mk_runner p "small"
              (load_mem (mk_reloc 1 0) stack (load_mem (mk_reloc 0 0) (data p) ∅))
              false false (builtin_runners r) (mk_segments (n + 1 + 1))
              (Some (mk_reloc 0 0)) (Some (mk_reloc 1 0))
              (Some (entry_pc entry)) (Some top) (Some top) (Some (mk_reloc (n + 1) 0))
              (Some (mk_vm (mk_context (entry_pc entry) top top) (hint_locals_of pi) 0))
              None false)
           out)
    | None =>
        (Raise (AttributeError "'NoneType' object has no attribute 'pc'"),
         mk_world (set_segments (mk_segments (n + 1 + 1)) r) out)
    end
  else (Raise (AssertionError "Missing builtin."), mk_world r out).
Proof.
  unfold setup.
  erewrite bind_ok by apply initialize_segments_fresh.
  unfold mbind at 1, M_bind at 1. rewrite build_stack_eq.
  unfold segmented_runner.
  set (init := initialize_builtin_segments _ _).
  cbn [runner stdout allow_missing_builtins program builtin_runners segments orb].
  destruct (forallb _ _); [|reflexivity].
  unfold get_by_full_name_pc.
  destruct (identifiers p !! _) as [entry|]; [|reflexivity].
  set (stack := _ ++ [_; _]).
  unfold initialize_state, initialize_vm, mbind, M_bind, mret, M_ret.
  cbn -[load_data load_mem hint_locals_of reloc_add].
  rewrite load_data_fresh by (intros; apply lookup_empty).
  cbn -[load_data load_mem hint_locals_of reloc_add].
  rewrite load_data_fresh
    by (intros a Hs _; cbn [runner memory set_memory];
        rewrite load_mem_other_segment by (rewrite Hs; done);
        apply lookup_empty).
  reflexivity.
Qed.

Lemma forallb_has_runner brs names :
  Forall (λ b, is_Some (dict_get (runner_key b) brs)) names →
  forallb (has_runner brs) names = true.
Proof.
  induction 1 as [|b names [br Hb] _ IH]; simpl; [done|].
  unfold has_runner at 1. by rewrite Hb.
Qed.

Lemma forallb_missing_runner brs names :
  Exists (λ b, dict_get (runner_key b) brs = None) names →
  forallb (has_runner brs) names = false.
Proof.
  induction 1 as [b names Hb|b names _ IH]; simpl.
  - unfold has_runner at 1. by rewrite Hb.
  - rewrite IH. apply andb_false_r.
Qed.

Lemma length_contributions brs names :
  length (concat (map (contribution brs) names))
  = sum_list (map (λ b, length (contribution brs b)) names).
Proof.
  induction names as [|b names IH]; simpl; [done|].
  by rewrite length_app, IH.
Qed.

(** C1: the stack built by lines 16-27 is the concatenation of the
    contributions of the declared builtins, in declaration order, followed
    by the return frame pointer and by the end sentinel, both fresh segment
    bases; its length is the sum of the lengths of the contributions plus
    two.  The loop completes whenever every declared builtin has a runner
    (or missing builtins are allowed). *)
Theorem stack_layout (w : World) :
  let r := runner w in
  let brs := builtin_runners r in
  let n := n_segments (segments r) in
  let contributions := map (contribution brs) (builtins (program r)) in
  allow_missing_builtins r = true
  ∨ Forall (λ b, is_Some (dict_get (runner_key b) brs)) (builtins (program r)) →
  ∃ stack w',
    build_stack w = (Ok (stack, mk_reloc (n + 1) 0), w')
    ∧ stack = concat contributions ++ [Reloc (mk_reloc n 0); Reloc (mk_reloc (n + 1) 0)]
    ∧ length stack = (sum_list (map length contributions) + 2)%nat.
Proof.
  intros r brs n contributions Hok.
  rewrite build_stack_eq. cbv zeta. fold r brs n.
  assert (allow_missing_builtins r
          || forallb (has_runner brs) (builtins (program r)) = true) as ->.
  { destruct Hok as [->|Hall]; [done|].
    rewrite (forallb_has_runner _ _ Hall). apply orb_true_r. }
  eexists _, _. split; [reflexivity|]. split; [reflexivity|].
  rewrite length_app. subst contributions.
  rewrite length_contributions, map_map. simpl. lia.
Qed.

(** C6: when the runner allows missing builtins, a declared builtin without
    a runner contributes the single word 0: the stack is the stack of the
    builtins declared before it, then 0, then the stack of those declared
    after it, then the two frame words. *)
Theorem missing_builtin_contributes_zero (w : World) (before after : list string)
    (name : string) :
  let r := runner w in
  let n := n_segments (segments r) in
  allow_missing_builtins r = true →
  builtins (program r) = before ++ name :: after →
  dict_get (name +:+ "_builtin") (builtin_runners r) = None →
  ∃ stack_before stack_after w',
    builtin_stack before [] w = (Ok stack_before, w)
    ∧ builtin_stack after [] w = (Ok stack_after, w)
    ∧ build_stack w
      = (Ok (stack_before ++ [Int 0] ++ stack_after
             ++ [Reloc (mk_reloc n 0); Reloc (mk_reloc (n + 1) 0)],
             mk_reloc (n + 1) 0), w').
Proof.
  intros r n Hallow Hsplit Hmissing.
  rewrite build_stack_eq, !builtin_stack_eq. cbv zeta. fold r n.
  rewrite Hallow. simpl.
  eexists _, _, _. split; [reflexivity|]. split; [reflexivity|].
  rewrite Hsplit, map_app, concat_app. simpl.
  unfold contribution at 2, runner_key. rewrite Hmissing.
  by rewrite <- !app_assoc.
Qed.

Lemma has_runner_segmented p name :
  has_runner (builtin_runners (segmented_runner p)) name
  = has_runner (layout_builtin_runners "small" p false) name.
Proof. apply has_runner_initialize. Qed.

Lemma forallb_ext_eq {A : Type} (f g : A → bool) l :
  (∀ x, f x = g x) → forallb f l = forallb g l.
Proof. intros E. induction l; simpl; [done|]. by rewrite E, IHl. Qed.

Lemma segmented_has_runners p :
  Forall (λ b, is_Some (dict_get (runner_key b) (layout_builtin_runners "small" p false)))
         (builtins p) →
  forallb (has_runner (builtin_runners (segmented_runner p))) (builtins p) = true.
Proof.
  intros Hall. rewrite (forallb_ext_eq _ _ _ (has_runner_segmented p)).
  by apply forallb_has_runner.
Qed.

Lemma segmented_missing_runner p :
  Exists (λ b, dict_get (runner_key b) (layout_builtin_runners "small" p false) = None)
         (builtins p) →
  forallb (has_runner (builtin_runners (segmented_runner p))) (builtins p) = false.
Proof.
  intros Hex. rewrite (forallb_ext_eq _ _ _ (has_runner_segmented p)).
  by apply forallb_missing_runner.
Qed.

(** C2: when the entry point resolves (and the builtin loop passes), the
    state handed to the VM has its program counter at the code address of
    the entry point, that is at its offset in the program segment, where
    the program was loaded, and its frame and allocation pointers at the
    base of the execution segment plus the length of the stack. *)
Theorem initial_registers (p : Program) (entrypoint : string)
    (program_input : option PyVal) (out : list string) (entry : Z) :
  identifiers p !! ["__main__"; entrypoint] = Some entry →
  Forall (λ b, is_Some (dict_get (runner_key b) (layout_builtin_runners "small" p false)))
         (builtins p) →
  ∃ stack end_ w' pb eb v,
    setup p entrypoint program_input (fresh_world p out) = (Ok (stack, end_), w')
    ∧ program_base (runner w') = Some pb
    ∧ execution_base (runner w') = Some eb
    ∧ (∀ i : nat, (i < length (data p))%nat →
         memory (runner w') !! reloc_add pb (Z.of_nat i) = data p !! i)
    ∧ initial_pc (runner w') = Some (reloc_add pb entry)
    ∧ initial_fp (runner w') = Some (reloc_add eb (Z.of_nat (length stack)))
    ∧ initial_ap (runner w') = Some (reloc_add eb (Z.of_nat (length stack)))
    ∧ vm (runner w') = Some v
    ∧ pc (run_context v) = reloc_add pb entry
    ∧ fp (run_context v) = reloc_add eb (Z.of_nat (length stack))
    ∧ ap (run_context v) = reloc_add eb (Z.of_nat (length stack)).
Proof.
  intros Hentry Hall.
  rewrite setup_eq. cbv zeta.
  rewrite (segmented_has_runners _ Hall), Hentry.
  eexists _, _, _, _, _, _. split; [reflexivity|]. cbn [runner program_base execution_base
    memory initial_pc initial_fp initial_ap vm run_context pc fp ap].
  repeat split.
  intros i Hi. rewrite load_mem_other_segment by done.
  by apply load_mem_lookup.
Qed.

Lemma construct_runner_inr p lay proof allow_missing r :
  construct_runner p lay proof allow_missing = inr r ↔
  (allow_missing = true
   ∨ forallb (has_runner (layout_builtin_runners lay p proof)) (builtins p) = true)
  ∧ is_subsequence (builtins p) supported_builtins = true
  ∧ r = new_runner p lay proof allow_missing.
Proof.
  unfold construct_runner.
  destruct allow_missing, (forallb _ _), (is_subsequence _ _); cbn; split.
  all: try (intros E; discriminate E).
  all: try (intros [= <-]; split; [auto|split; reflexivity]).
  all: intros ([?|?] & ? & ->); congruence.
Qed.

Lemma run_constructed fuel p entrypoint program_input out :
  Forall (λ b, is_Some (dict_get (runner_key b) (layout_builtin_runners "small" p false)))
         (builtins p) →
  is_subsequence (builtins p) supported_builtins = true →
  run_program_entrypoint fuel p entrypoint program_input out
  = ('(_, end_) ← setup p entrypoint program_input; run_and_finalize fuel end_)
      (fresh_world p out).
Proof.
  intros Hall Hsub. unfold run_program_entrypoint.
  assert (construct_runner p "small" false false = inr (new_runner p "small" false false))
    as ->; [|reflexivity].
  apply construct_runner_inr. split; [right; by apply forallb_has_runner|done].
Qed.

Lemma run_ok_inv fuel p entrypoint program_input out w' :
  run_program_entrypoint fuel p entrypoint program_input out = (Ok tt, w') →
  ('(_, end_) ← setup p entrypoint program_input; run_and_finalize fuel end_)
    (fresh_world p out) = (Ok tt, w').
Proof.
  unfold run_program_entrypoint.
  destruct (construct_runner p "small" false false) as [e|r] eqn:E; [done|].
  apply construct_runner_inr in E as (_ & _ & ->). done.
Qed.

(** C4: the runner is constructed with [allow_missing_builtins=False]; when
    a declared builtin has no runner in the layout, the construction of
    lines 7-13 is refused with an assertion error.  Nothing else has
    happened: no segment is allocated, the memory is empty, no register or
    VM state exists, no step count is recorded and nothing is printed. *)
Theorem missing_builtin_fails_before_writes (fuel : nat) (p : Program)
    (entrypoint : string) (program_input : option PyVal) (out : list string) :
  Exists (λ b, dict_get (b +:+ "_builtin") (layout_builtin_runners "small" p false) = None)
         (builtins p) →
  ∃ msg w',
    run_program_entrypoint fuel p entrypoint program_input out
    = (Raise (AssertionError msg), w')
    ∧ allow_missing_builtins (runner w') = false
    ∧ n_segments (segments (runner w')) = 0
    ∧ execution_base (runner w') = None
    ∧ memory (runner w') = ∅
    ∧ initial_pc (runner w') = None
    ∧ vm (runner w') = None
    ∧ original_steps (runner w') = None
    ∧ stdout w' = out.
Proof.
  intros Hex. unfold run_program_entrypoint, construct_runner.
  rewrite (forallb_missing_runner _ _ Hex). cbn [negb andb].
  eexists _, _. split; [reflexivity|]. done.
Qed.

(** C5 (as amended): when the runner can be constructed (every declared
    builtin has a runner in the layout and the builtins are declared in the
    supported order) and the entry point is absent from the identifier
    table, the call fails while it resolves the entry point, on line 30: the
    lookup finds nothing and reading its [pc] raises.  At that point the
    memory is still empty and no register or VM state exists; the segments
    allocated so far, the last two of them for the return frame pointer and
    the end sentinel, belong to the runner of this call only. *)
Theorem unknown_entrypoint_fails_before_writes (fuel : nat) (p : Program)
    (entrypoint : string) (program_input : option PyVal) (out : list string) :
  identifiers p !! ["__main__"; entrypoint] = None →
  Forall (λ b, is_Some (dict_get (b +:+ "_builtin") (layout_builtin_runners "small" p false)))
         (builtins p) →
  is_subsequence (builtins p) supported_builtins = true →
  ∃ w',
    run_program_entrypoint fuel p entrypoint program_input out
    = (Raise (AttributeError "'NoneType' object has no attribute 'pc'"), w')
    ∧ memory (runner w') = ∅
    ∧ initial_pc (runner w') = None
    ∧ initial_fp (runner w') = None
    ∧ initial_ap (runner w') = None
    ∧ vm (runner w') = None
    ∧ original_steps (runner w') = None
    ∧ stdout w' = out
    ∧ n_segments (segments (runner w'))
      = n_segments (segments (segmented_runner p)) + 2.
Proof.
  intros Hentry Hall Hsub. rewrite (run_constructed _ _ _ _ _ Hall Hsub).
  erewrite bind_raise.
  2:{ pose proof (setup_eq p entrypoint program_input out) as E.
      cbv zeta in E. rewrite (segmented_has_runners _ Hall), Hentry in E. exact E. }
  eexists. split; [reflexivity|]. cbn. repeat split. lia.
Qed.

(** C9: the hint context binds ["program_input"], and nothing else, to the
    given value when it is truthy, and to an empty dictionary when the
    argument is omitted or falsy. *)
Theorem program_input_binding (p : Program) (entrypoint : string)
    (program_input : option PyVal) (out : list string) (entry : Z) :
  identifiers p !! ["__main__"; entrypoint] = Some entry →
  Forall (λ b, is_Some (dict_get (b +:+ "_builtin") (layout_builtin_runners "small" p false)))
         (builtins p) →
  ∃ stack end_ w' v,
    setup p entrypoint program_input (fresh_world p out) = (Ok (stack, end_), w')
    ∧ vm (runner w') = Some v
    ∧ hint_locals v
      = {[ "program_input" :=
             match program_input with
             | None => PyDict []
             | Some x => if truthy x then x else PyDict []
             end ]}.
Proof.
  intros Hentry Hall.
  rewrite setup_eq. cbv zeta.
  rewrite (segmented_has_runners _ Hall), Hentry.
  eexists _, _, _, _. split; [reflexivity|]. split; [reflexivity|].
  cbn [hint_locals]. unfold hint_locals_of, py_or.
  destruct program_input as [x|]; reflexivity.
Qed.

(** *** The run and its finalization *)

Lemma stepped_refl r : stepped r r.
Proof. by destruct r. Qed.

Lemma stepped_trans r1 r2 r3 : stepped r1 r2 → stepped r2 r3 → stepped r1 r3.
Proof.
  unfold stepped. intros H1 H2. rewrite H2 at 1. rewrite H1. reflexivity.
Qed.

Lemma vm_step_frame w res w' :
  vm_step w = (res, w') → stepped (runner w) (runner w') ∧ stdout w' = stdout w.
Proof.
  unfold vm_step, get_vm, mbind, M_bind, get_runner, mret, M_ret, raise. cbn.
  destruct (vm (runner w)) as [v|]; cbn.
  - destruct (step _ _ _ _) as [e|[[ctx locals] mem]]; cbn; intros [= <- <-].
    + split; [apply stepped_refl|done].
    + split; [reflexivity|done].
  - intros [= <- <-]. split; [apply stepped_refl|done].
Qed.

Lemma run_until_pc_unfold fuel addr w :
  run_until_pc fuel addr w =
  match vm (runner w) with
  | None => (Raise (TypeError "vm"), w)
  | Some v =>
      if decide (pc (run_context v) = addr) then (Ok tt, w)
      else match fuel with
           | O => (OutOfFuel, w)
           | S fuel' => (vm_step;; run_until_pc fuel' addr) w
           end
  end.
Proof.
  destruct fuel; cbn; unfold get_vm, mbind, M_bind, get_runner, mret, M_ret, raise; cbn;
    destruct (vm (runner w)); cbn; try destruct (decide _); reflexivity.
Qed.

Lemma run_until_pc_spec fuel : ∀ addr w res w',
  run_until_pc fuel addr w = (res, w') →
  stepped (runner w) (runner w') ∧ stdout w' = stdout w
  ∧ (res = Ok tt → ∃ v, vm (runner w') = Some v ∧ pc (run_context v) = addr).
Proof.
  induction fuel as [|fuel IH]; intros addr w res w'; rewrite run_until_pc_unfold;
    destruct (vm (runner w)) as [v|] eqn:Ev.
  - destruct (decide _) as [Hpc|Hpc]; intros [= <- <-].
    + split; [apply stepped_refl|]. split; [done|]. eauto.
    + split; [apply stepped_refl|]. split; [done|]. done.
  - intros [= <- <-]. split; [apply stepped_refl|]. split; done.
  - destruct (decide _) as [Hpc|Hpc].
    + intros [= <- <-]. split; [apply stepped_refl|]. split; [done|]. eauto.
    + unfold mbind, M_bind. destruct (vm_step w) as [r1 w1] eqn:E1.
      apply vm_step_frame in E1 as [Hs1 Ho1].
      destruct r1 as [[]|e|].
      * intros E2. apply IH in E2 as (Hs2 & Ho2 & Hok).
        split; [by eapply stepped_trans|]. split; [congruence|done].
      * intros [= <- <-]. split; [done|]. split; done.
      * intros [= <- <-]. split; [done|]. split; done.
  - intros [= <- <-]. split; [apply stepped_refl|]. split; done.
Qed.

Lemma pad_trace_frame fuel : ∀ w res w',
  pad_trace fuel w = (res, w') → stepped (runner w) (runner w') ∧ stdout w' = stdout w.
Proof.
  induction fuel as [|fuel IH]; intros w res w'; cbn;
    unfold get_vm, mbind, M_bind, get_runner, mret, M_ret, raise, out_of_fuel; cbn;
    (destruct (vm (runner w)) as [v|]; cbn;
      [|intros [= <- <-]; split; [apply stepped_refl|done]]);
    (destruct (check_used_cells _ _) as [e|[|]]; cbn;
      [intros [= <- <-]; split; [apply stepped_refl|done]
      |intros [= <- <-]; split; [apply stepped_refl|done]|]).
  - intros [= <- <-]; split; [apply stepped_refl|done].
  - destruct (vm_step w) as [r1 w1] eqn:E1.
    apply vm_step_frame in E1 as [Hs1 Ho1].
    destruct r1 as [[]|e|].
    + intros E2. apply IH in E2 as [Hs2 Ho2].
      split; [by eapply stepped_trans|congruence].
    + intros [= <- <-]. done.
    + intros [= <- <-]. done.
Qed.

Lemma end_run_unpadded fuel (disable_trace_padding : bool) w :
  proof_mode (runner w) && negb disable_trace_padding = false →
  end_run fuel disable_trace_padding w =
  if run_ended (runner w)
  then (Raise (AssertionError "end_run called twice."), w)
  else (Ok tt, mk_world (set_run_ended true (runner w)) (stdout w)).
Proof.
  intros E. unfold end_run, mbind, M_bind, get_runner. cbn.
  destruct (run_ended (runner w)); [reflexivity|].
  rewrite E. reflexivity.
Qed.

Lemma end_run_frame fuel d w w' :
  end_run fuel d w = (Ok tt, w') →
  ∃ r1, stepped (runner w) r1 ∧ runner w' = set_run_ended true r1 ∧ stdout w' = stdout w.
Proof.
  unfold end_run, mbind, M_bind, get_runner. cbn.
  destruct (run_ended (runner w)); [done|].
  destruct (proof_mode (runner w) && negb d).
  - destruct (pad_trace fuel w) as [r1 w1] eqn:E1.
    apply pad_trace_frame in E1 as [Hs Ho].
    destruct r1 as [[]|e|]; try done.
    unfold modify_runner. intros [= <-]. eauto.
  - cbn. intros [= <-]. eexists. split; [apply stepped_refl|done].
Qed.

Lemma print_output_runner w :
  ∃ lines, print_output w = (Ok tt, mk_world (runner w) (stdout w ++ lines)).
Proof.
  unfold print_output, mbind, M_bind, get_runner. cbn.
  destruct (dict_get _ _).
  - eexists. reflexivity.
  - exists []. rewrite app_nil_r. by destruct w.
Qed.

Lemma run_and_finalize_recorded fuel end_ w w1 v1 :
  run_until_pc fuel end_ w = (Ok tt, w1) →
  vm (runner w1) = Some v1 →
  run_and_finalize fuel end_ w
  = (end_run fuel false;; print_output)
      (mk_world (set_original_steps (Some (current_step v1)) (runner w1)) (stdout w1)).
Proof.
  intros Hdrive Hv. unfold run_and_finalize.
  erewrite bind_ok by exact Hdrive.
  assert (get_vm w1 = (Ok v1, w1)) as Hget.
  { unfold get_vm, mbind, M_bind, get_runner. cbn. by rewrite Hv. }
  erewrite bind_ok by exact Hget.
  reflexivity.
Qed.

(** C3: the last word of the stack is the end sentinel, and a call that
    completes ends with the program counter of its VM at the end sentinel,
    which is also the recorded final program counter. *)
Theorem run_ends_at_sentinel (fuel : nat) (p : Program) (entrypoint : string)
    (program_input : option PyVal) (out : list string) (w' : World) :
  run_program_entrypoint fuel p entrypoint program_input out = (Ok tt, w') →
  ∃ stack end_ w1 v,
    setup p entrypoint program_input (fresh_world p out) = (Ok (stack, end_), w1)
    ∧ last stack = Some (Reloc end_)
    ∧ final_pc (runner w') = Some end_
    ∧ vm (runner w') = Some v
    ∧ pc (run_context v) = end_.
Proof.
  intros Hrun. apply run_ok_inv in Hrun.
  apply bind_inv_ok in Hrun as ([stack end_] & w1 & Hsetup & Hrun).
  exists stack, end_, w1.
  assert (last stack = Some (Reloc end_) ∧ final_pc (runner w1) = Some end_
          ∧ proof_mode (runner w1) = false) as (Hlast & Hfinal & Hproof).
  { rewrite setup_eq in Hsetup. cbv zeta in Hsetup.
    destruct (forallb _ _); [|done].
    destruct (identifiers p !! _); [|done].
    injection Hsetup as <- <- <-. split; [|done].
    rewrite last_app. reflexivity. }
  destruct (run_until_pc fuel end_ w1) as [res w2] eqn:Hdrive.
  assert (res = Ok tt) as ->.
  { unfold run_and_finalize, mbind at 1, M_bind at 1 in Hrun. rewrite Hdrive in Hrun.
    by destruct res as [[]|?|]. }
  destruct (run_until_pc_spec _ _ _ _ _ Hdrive) as (Hs2 & _ & Hpc).
  destruct (Hpc eq_refl) as (v & Hv & Hat).
  rewrite (run_and_finalize_recorded _ _ _ _ _ Hdrive Hv) in Hrun.
  apply bind_inv_ok in Hrun as ([] & w4 & Hend & Hprint).
  rewrite end_run_unpadded in Hend
    by (cbn; rewrite Hs2; cbn; by rewrite Hproof).
  cbn in Hend. destruct (run_ended (runner w2)); [done|]. injection Hend as <-.
  destruct (print_output_runner
              (mk_world (set_run_ended true (set_original_steps (Some (current_step v)) (runner w2)))
                        (stdout w2))) as [lines Hlines].
  rewrite Hlines in Hprint. injection Hprint as <-. cbn.
  exists v. split; [done|]. split; [done|]. split; [|done].
  rewrite Hs2. cbn. done.
Qed.

(** C7: once the driver has returned, at the end sentinel, the step count
    it reached is recorded, and only then the end-of-run bookkeeping and the
    output run, on a runner that already holds the count; the count
    survives them.  [end_run] with padding disabled steps nothing, whatever
    the mode of the runner, whereas a runner in proof mode with padding
    enabled pads. *)
Theorem steps_recorded_before_bookkeeping (fuel : nat) (end_ : RelocatableValue)
    (w w1 : World) :
  run_until_pc fuel end_ w = (Ok tt, w1) →
  ∃ v1,
    vm (runner w1) = Some v1
    ∧ pc (run_context v1) = end_
    ∧ run_and_finalize fuel end_ w
      = (end_run fuel false;; print_output)
          (mk_world (set_original_steps (Some (current_step v1)) (runner w1)) (stdout w1))
    ∧ (∀ w', run_and_finalize fuel end_ w = (Ok tt, w') →
             original_steps (runner w') = Some (current_step v1))
    ∧ (∀ fuel' w0,
         end_run fuel' true w0
         = if run_ended (runner w0)
           then (Raise (AssertionError "end_run called twice."), w0)
           else (Ok tt, mk_world (set_run_ended true (runner w0)) (stdout w0)))
    ∧ (∀ fuel' w0,
         run_ended (runner w0) = false → proof_mode (runner w0) = true →
         end_run fuel' false w0
         = (pad_trace fuel';; modify_runner (set_run_ended true)) w0).
Proof.
  intros Hdrive.
  destruct (run_until_pc_spec _ _ _ _ _ Hdrive) as (_ & _ & Hpc).
  destruct (Hpc eq_refl) as (v1 & Hv & Hat).
  exists v1. split; [done|]. split; [done|].
  split; [by apply run_and_finalize_recorded|].
  split; [|split].
  - intros w' Hrun.
    rewrite (run_and_finalize_recorded _ _ _ _ _ Hdrive Hv) in Hrun.
    apply bind_inv_ok in Hrun as ([] & w2 & Hend & Hprint).
    apply end_run_frame in Hend as (r1 & Hs & Hr & _).
    destruct (print_output_runner w2) as [lines Hlines].
    rewrite Hlines in Hprint. injection Hprint as <-. cbn.
    rewrite Hr, Hs. reflexivity.
  - intros fuel' w0. apply end_run_unpadded. apply andb_false_r.
  - intros fuel' w0 Hended Hproof.
    unfold end_run. unfold mbind at 1, M_bind at 1, get_runner. cbn.
    by rewrite Hended, Hproof.
Qed.

End HarnessProofs.

(** * Properties of the statistics script *)

Lemma occurrences_keys (k : string * string) (df : DataFrame) :
  occurrences k df = length (filter (λ k', k' = k) (map subset_key df)).
Proof.
  unfold occurrences. induction df as [|r df IH]; [done|].
  cbn [map]. rewrite !filter_cons.
  destruct (decide (subset_key r = k)); simpl; by rewrite IH.
Qed.

Lemma row_eq (r r' : Row) :
  subset_key r = subset_key r' → values r = values r' → r = r'.
Proof.
  destruct r, r'. unfold subset_key. simpl. by intros [= -> ->] ->.
Qed.

Lemma agree_keys (P : Row → Row → Prop) (l l' : DataFrame) :
  Forall2 (λ r r', subset_key r = subset_key r' ∧ P r r') l l' →
  map subset_key l = map subset_key l'.
Proof. induction 1 as [|r r' l l' [Hk _] _ IH]; simpl; by rewrite ?Hk, ?IH. Qed.

Lemma filter_unique_agree (df df' l l' : DataFrame) :
  (∀ k, occurrences k df' = occurrences k df) →
  Forall2 (λ r r', subset_key r = subset_key r'
                   ∧ (occurrences (subset_key r) df = 1%nat → values r = values r'))
          l l' →
  filter (λ r, occurrences (subset_key r) df = 1%nat) l
  = filter (λ r, occurrences (subset_key r) df' = 1%nat) l'.
Proof.
  intros Hocc Hagree.
  induction Hagree as [|r r' l l' [Hk Hv] _ IH]; [done|].
  rewrite !filter_cons, IH.
  destruct (decide (occurrences (subset_key r) df = 1%nat)) as [H1|H1].
  - rewrite decide_True by (by rewrite <- Hk, Hocc).
    f_equal. by apply row_eq; [|apply Hv].
  - by rewrite decide_False by (by rewrite <- Hk, Hocc).
Qed.

Lemma drop_duplicates_agree (df df' : DataFrame) :
  agree_outside_duplicates df df' → drop_duplicates df = drop_duplicates df'.
Proof.
  intros Hagree. unfold drop_duplicates.
  apply filter_unique_agree; [|exact Hagree].
  intros k. rewrite !occurrences_keys. by rewrite (agree_keys _ _ _ Hagree).
Qed.

(** C10: whenever [main] reports a summary, the rows it averages are exactly
    the rows of the concatenated data whose (head_branch, test) pair occurs
    once: a pair that occurs more than once leaves no row behind.  The
    summary does not depend on the measurements of the rows that were
    dropped: any data with the same keys row by row and the same
    measurements in the rows that are kept yields the same summary. *)
Theorem duplicated_tests_contribute_nothing (artifacts : list string)
    (read_csv : string → option (list CsvRow)) (local_csv : option (list CsvRow))
    (summary : gmap string (list Q)) :
  main artifacts read_csv local_csv = inr summary →
  ∃ frames df,
    resources artifacts read_csv local_csv = inr frames
    ∧ all_resources frames = inr df
    ∧ summary = average_summary df
    ∧ (∀ r, r ∈ concat frames →
            (1 < occurrences (subset_key r) (concat frames))%nat →
            ∀ r', r' ∈ df → subset_key r' ≠ subset_key r)
    ∧ (∀ r, r ∈ df ↔ r ∈ concat frames
                      ∧ occurrences (subset_key r) (concat frames) = 1%nat)
    ∧ (∀ artifacts' read_csv' local_csv' frames',
         resources artifacts' read_csv' local_csv' = inr frames' →
         frames' ≠ [] →
         agree_outside_duplicates (concat frames) (concat frames') →
         main artifacts' read_csv' local_csv' = inr summary).
Proof.
  unfold main.
  destruct (resources artifacts read_csv local_csv) as [e|frames]; [done|].
  destruct (all_resources frames) as [e|df] eqn:Hall; [done|]. intros [= <-].
  exists frames, df. split; [done|]. split; [done|]. split; [done|].
  unfold all_resources, pd_concat in Hall.
  destruct frames as [|f frames]; [done|]. injection Hall as <-.
  set (all := concat (f :: frames)).
  assert (∀ r, r ∈ drop_duplicates all ↔ r ∈ all ∧ occurrences (subset_key r) all = 1%nat)
    as Hkept.
  { intros r. unfold drop_duplicates. rewrite list_elem_of_filter. tauto. }
  split; [|split].
  - intros r _ Hdup r' Hin Hkey. apply Hkept in Hin as [_ H1].
    rewrite Hkey in H1. lia.
  - exact Hkept.
  - intros artifacts' read_csv' local_csv' frames' -> Hne Hagree.
    unfold all_resources, pd_concat.
    destruct frames' as [|f' frames']; [done|].
    by rewrite <- (drop_duplicates_agree _ _ Hagree).
Qed.

(** * The scenarios, on the small engine *)

Example scenario_range_check_stack :
  @build_stack simple_vm segmented_example
  = (Ok ([Reloc (mk_reloc 2 0); Reloc (mk_reloc 3 0); Reloc (mk_reloc 4 0)], mk_reloc 4 0),
     mk_world (set_segments (mk_segments 5) (runner segmented_example)) []).
Proof. reflexivity. Qed.

Example scenario_range_check_run :
  let w := (@run_program_entrypoint simple_vm 5 range_check_program "main" None []).2 in
  (@run_program_entrypoint simple_vm 5 range_check_program "main" None []).1 = Ok tt
  ∧ initial_ap (runner w) = Some (mk_reloc 1 3)
  ∧ initial_fp (runner w) = Some (mk_reloc 1 3)
  ∧ final_pc (runner w) = Some (mk_reloc 4 0)
  ∧ original_steps (runner w) = Some 1%nat
  ∧ stdout w = [].
Proof. vm_compute. repeat split. Qed.

Example scenario_missing_runner :
  @run_program_entrypoint simple_vm 5 (ret_program ["bitwise"]) "main" None []
  = (Raise (AssertionError "Builtins are not present in layout."),
     mk_world (@unbuilt_runner simple_vm (ret_program ["bitwise"]) "small" false false) []).
Proof. reflexivity. Qed.

Example scenario_misordered_builtins :
  @run_program_entrypoint simple_vm 5 (ret_program ["range_check"; "output"]) "main" None []
  = (Raise (AssertionError "The builtins must be a subsequence of the supported builtins."),
     mk_world (@unbuilt_runner simple_vm (ret_program ["range_check"; "output"])
                               "small" false false) []).
Proof. reflexivity. Qed.

Example scenario_nonexistent :
  let w := (@run_program_entrypoint simple_vm 5 range_check_program "nonexistent" None []).2 in
  (@run_program_entrypoint simple_vm 5 range_check_program "nonexistent" None []).1
  = Raise (AttributeError "'NoneType' object has no attribute 'pc'")
  ∧ memory (runner w) = ∅.
Proof. vm_compute. done. Qed.

Example truthy_values :
  map truthy [PyNone; PyDict []; PyInt 0; PyStr ""; PyList []; PyBool false;
              PyInt 7; PyStr "x"; PyDict [(PyStr "n", PyInt 1)]]
  = [false; false; false; false; false; false; true; true; true].
Proof. reflexivity. Qed.

Example drop_duplicates_example :
  drop_duplicates
    [mk_row "main" "test_add" [100; 7]; mk_row "main" "test_mul" [300; 9];
     mk_row "main" "test_add" [999; 1]; mk_row "local" "test_add" [150; 8]]
  = [mk_row "main" "test_mul" [300; 9]; mk_row "local" "test_add" [150; 8]].
Proof. reflexivity. Qed.

Example main_example :
  (λ s, (s !! "main", s !! "local")) <$>
    match main ["main"] example_csv (Some example_local_csv) with
    | inr s => Some s
    | inl _ => None
    end
  = Some (Some [(30000 # 100)%Q; (900 # 100)%Q], Some [(22550 # 100)%Q; (850 # 100)%Q]).
Proof. vm_compute. reflexivity. Qed.

Lemma stack_layout_witness :
  Forall (λ b, is_Some (dict_get (runner_key b) (builtin_runners (runner segmented_example))))
         (builtins (program (runner segmented_example)))
  ∧ ∃ stack w',
      @build_stack simple_vm segmented_example = (Ok (stack, mk_reloc 4 0), w')
      ∧ stack = [Reloc (mk_reloc 2 0); Reloc (mk_reloc 3 0); Reloc (mk_reloc 4 0)]
      ∧ length stack = 3%nat.
Proof.
  assert (Forall (λ b, is_Some (dict_get (runner_key b)
                                         (builtin_runners (runner segmented_example))))
                 (builtins (program (runner segmented_example)))) as Hall.
  { repeat constructor. vm_compute. eauto. }
  split; [exact Hall|].
  destruct (@stack_layout simple_vm segmented_example (or_intror Hall))
    as (stack & w' & Hbuilt & Hstack & Hlen).
  exists stack, w'. split; [exact Hbuilt|]. split; [exact Hstack|].
  rewrite Hstack. reflexivity.
Defined.

Lemma missing_builtin_contributes_zero_witness :
  (allow_missing_builtins (runner lenient_example) = true
   ∧ builtins (program (runner lenient_example)) = ["range_check"] ++ "bitwise" :: ["ec_op"]
   ∧ dict_get ("bitwise" +:+ "_builtin") (builtin_runners (runner lenient_example)) = None)
  ∧ ∃ w',
      @build_stack simple_vm lenient_example
      = (Ok ([Reloc (mk_reloc 2 0)] ++ [Int 0] ++ [Int 0]
             ++ [Reloc (mk_reloc 3 0); Reloc (mk_reloc 4 0)], mk_reloc 4 0), w').
Proof.
  split; [repeat split|].
  destruct (@missing_builtin_contributes_zero simple_vm lenient_example
              ["range_check"] ["ec_op"] "bitwise" eq_refl eq_refl eq_refl)
    as (stack_before & stack_after & w' & Hbefore & Hafter & Hbuilt).
  exists w'. rewrite Hbuilt.
  injection Hbefore as <-. injection Hafter as <-. reflexivity.
Defined.

Lemma initial_registers_witness :
  (identifiers range_check_program !! ["__main__"; "main"] = Some 0
   ∧ Forall (λ b, is_Some (dict_get (runner_key b)
                             (simple_layout_builtin_runners "small" range_check_program false)))
            (builtins range_check_program))
  ∧ ∃ stack end_ w' pb eb v,
      @setup simple_vm range_check_program "main" None
             (@fresh_world simple_vm range_check_program []) = (Ok (stack, end_), w')
      ∧ program_base (runner w') = Some pb
      ∧ execution_base (runner w') = Some eb
      ∧ initial_pc (runner w') = Some (reloc_add pb 0)
      ∧ initial_fp (runner w') = Some (reloc_add eb (Z.of_nat (length stack)))
      ∧ initial_ap (runner w') = Some (reloc_add eb (Z.of_nat (length stack)))
      ∧ vm (runner w') = Some v
      ∧ pc (run_context v) = reloc_add pb 0.
Proof.
  assert (identifiers range_check_program !! ["__main__"; "main"] = Some 0) as Hentry
    by (vm_compute; reflexivity).
  assert (Forall (λ b, is_Some (dict_get (runner_key b)
                     (simple_layout_builtin_runners "small" range_check_program false)))
                 (builtins range_check_program)) as Hall
    by (repeat constructor; vm_compute; eauto).
  split; [split; [exact Hentry|exact Hall]|].
  destruct (@initial_registers simple_vm range_check_program "main" None [] 0 Hentry Hall)
    as (stack & end_ & w' & pb & eb & v & Hsetup & Hpb & Heb & _ & Hpc & Hfp & Hap & Hv
        & Hvpc & _).
  exists stack, end_, w', pb, eb, v.
  repeat (split; [eassumption|]). exact Hvpc.
Defined.

Lemma run_ends_at_sentinel_witness :
  let outcome := @run_program_entrypoint simple_vm 5 range_check_program "main" None [] in
  outcome = (Ok tt, outcome.2)
  ∧ ∃ stack end_ w1 v,
      @setup simple_vm range_check_program "main" None
             (@fresh_world simple_vm range_check_program []) = (Ok (stack, end_), w1)
      ∧ last stack = Some (Reloc end_)
      ∧ final_pc (runner outcome.2) = Some end_
      ∧ vm (runner outcome.2) = Some v
      ∧ pc (run_context v) = end_.
Proof.
  intros outcome.
  assert (outcome = (Ok tt, outcome.2)) as Hrun by (vm_compute; reflexivity).
  split; [exact Hrun|].
  exact (@run_ends_at_sentinel simple_vm 5 range_check_program "main" None []
           outcome.2 Hrun).
Defined.

Lemma missing_builtin_fails_before_writes_witness :
  Exists (λ b, dict_get (b +:+ "_builtin")
                        (simple_layout_builtin_runners "small" (ret_program ["bitwise"]) false)
               = None)
         (builtins (ret_program ["bitwise"]))
  ∧ ∃ msg w',
      @run_program_entrypoint simple_vm 5 (ret_program ["bitwise"]) "main" None []
      = (Raise (AssertionError msg), w')
      ∧ n_segments (segments (runner w')) = 0
      ∧ memory (runner w') = ∅
      ∧ vm (runner w') = None.
Proof.
  assert (Exists (λ b, dict_get (b +:+ "_builtin")
                    (simple_layout_builtin_runners "small" (ret_program ["bitwise"]) false)
                  = None)
                 (builtins (ret_program ["bitwise"]))) as Hex
    by (apply Exists_cons_hd; reflexivity).
  split; [exact Hex|].
  destruct (@missing_builtin_fails_before_writes simple_vm 5 (ret_program ["bitwise"])
              "main" None [] Hex)
    as (msg & w' & Hrun & _ & Hseg & _ & Hmem & _ & Hvm & _).
  exists msg, w'. split; [exact Hrun|]. split; [exact Hseg|]. split; [exact Hmem|exact Hvm].
Defined.

(** C5 (as stated) fails: a program that declares a builtin outside the
    layout is refused when the runner is constructed, on lines 7-13; an
    unknown entry point is then never looked up, and the call fails with
    the assertion error of the constructor. *)
Lemma unknown_entrypoint_with_missing_builtin :
  identifiers (ret_program ["bitwise"]) !! ["__main__"; "nonexistent"] = None
  ∧ @run_program_entrypoint simple_vm 5 (ret_program ["bitwise"]) "nonexistent" None []
    = (Raise (AssertionError "Builtins are not present in layout."),
       mk_world (@unbuilt_runner simple_vm (ret_program ["bitwise"]) "small" false false) [])
  ∧ ¬ ∃ msg w',
        @run_program_entrypoint simple_vm 5 (ret_program ["bitwise"]) "nonexistent" None []
        = (Raise (AttributeError msg), w').
Proof.
  split; [vm_compute; reflexivity|]. split; [reflexivity|].
  intros (msg & w' & Hrun).
  apply (f_equal fst) in Hrun. vm_compute in Hrun. discriminate.
Qed.

Lemma unknown_entrypoint_fails_before_writes_witness :
  (identifiers range_check_program !! ["__main__"; "nonexistent"] = None
   ∧ Forall (λ b, is_Some (dict_get (b +:+ "_builtin")
                             (simple_layout_builtin_runners "small" range_check_program false)))
            (builtins range_check_program)
   ∧ is_subsequence (builtins range_check_program) (@supported_builtins simple_vm) = true)
  ∧ ∃ w',
      @run_program_entrypoint simple_vm 5 range_check_program "nonexistent" None []
      = (Raise (AttributeError "'NoneType' object has no attribute 'pc'"), w')
      ∧ memory (runner w') = ∅
      ∧ vm (runner w') = None.
Proof.
  assert (identifiers range_check_program !! ["__main__"; "nonexistent"] = None) as Hentry
    by (vm_compute; reflexivity).
  assert (Forall (λ b, is_Some (dict_get (b +:+ "_builtin")
                     (simple_layout_builtin_runners "small" range_check_program false)))
                 (builtins range_check_program)) as Hall
    by (repeat constructor; vm_compute; eauto).
  assert (is_subsequence (builtins range_check_program) (@supported_builtins simple_vm) = true)
    as Hsub by reflexivity.
  split; [split; [exact Hentry|split; [exact Hall|exact Hsub]]|].
  destruct (@unknown_entrypoint_fails_before_writes simple_vm 5 range_check_program
              "nonexistent" None [] Hentry Hall Hsub)
    as (w' & Hrun & Hmem & _ & _ & _ & Hvm & _).
  exists w'. split; [exact Hrun|]. split; [exact Hmem|exact Hvm].
Defined.

Lemma steps_recorded_before_bookkeeping_witness :
  let driven := @run_until_pc simple_vm 5 (mk_reloc 4 0) ready_example in
  driven = (Ok tt, driven.2)
  ∧ ∃ v1,
      vm (runner driven.2) = Some v1
      ∧ current_step v1 = 1%nat
      ∧ ∀ w', @run_and_finalize simple_vm 5 (mk_reloc 4 0) ready_example = (Ok tt, w') →
              original_steps (runner w') = Some 1%nat.
Proof.
  intros driven.
  assert (driven = (Ok tt, driven.2)) as Hdriven by (vm_compute; reflexivity).
  split; [exact Hdriven|].
  destruct (@steps_recorded_before_bookkeeping simple_vm 5 (mk_reloc 4 0) ready_example
              driven.2 Hdriven)
    as (v1 & Hv & _ & _ & Hkept & _).
  exists v1. split; [exact Hv|].
  assert (current_step v1 = 1%nat) as Hone.
  { revert Hv. vm_compute. by intros [= <-]. }
  split; [exact Hone|]. intros w' Hrun. rewrite <- Hone. by apply Hkept.
Defined.

Lemma program_input_binding_witness :
  (identifiers range_check_program !! ["__main__"; "main"] = Some 0
   ∧ Forall (λ b, is_Some (dict_get (b +:+ "_builtin")
                             (simple_layout_builtin_runners "small" range_check_program false)))
            (builtins range_check_program))
  ∧ ∃ stack end_ w' v,
      @setup simple_vm range_check_program "main" (Some (PyInt 0))
             (@fresh_world simple_vm range_check_program []) = (Ok (stack, end_), w')
      ∧ vm (runner w') = Some v
      ∧ hint_locals v = {[ "program_input" := PyDict [] ]}.
Proof.
  assert (identifiers range_check_program !! ["__main__"; "main"] = Some 0) as Hentry
    by (vm_compute; reflexivity).
  assert (Forall (λ b, is_Some (dict_get (b +:+ "_builtin")
                     (simple_layout_builtin_runners "small" range_check_program false)))
                 (builtins range_check_program)) as Hall
    by (repeat constructor; vm_compute; eauto).
  split; [by split|].
  apply (@program_input_binding simple_vm range_check_program "main" (Some (PyInt 0)) [] 0
           Hentry Hall).
Defined.

Lemma duplicated_tests_contribute_nothing_witness :
  let summary := average_summary
                   [mk_row "main" "test_mul" [300; 9]; mk_row "local" "test_add" [150; 8];
                    mk_row "local" "test_mul" [301; 9]] in
  main ["main"] example_csv (Some example_local_csv) = inr summary
  ∧ ∃ df, all_resources [assign_head_branch "main" [mk_csv_row "test_add" [100; 7];
                                                     mk_csv_row "test_mul" [300; 9];
                                                     mk_csv_row "test_add" [999; 1]];
                         assign_head_branch "local" example_local_csv] = inr df
          ∧ summary = average_summary df
          ∧ ∀ r', r' ∈ df → subset_key r' ≠ ("main", "test_add").
Proof.
  intros summary.
  assert (main ["main"] example_csv (Some example_local_csv) = inr summary) as Hmain
    by reflexivity.
  split; [exact Hmain|].
  destruct (duplicated_tests_contribute_nothing _ _ _ _ Hmain)
    as (frames & df & Hframes & Hall & Hsum & Hdropped & _).
  injection Hframes as <-.
  exists df. split; [exact Hall|]. split; [exact Hsum|].
  intros r' Hin.
  apply (Hdropped (mk_row "main" "test_add" [100; 7])); [|vm_compute; lia|exact Hin].
  apply list_elem_of_here.
Defined.

(** * Further properties of [run_program_entrypoint] *)

Section HarnessExtras.
Context `{CairoVM}.

Lemma setup_ok_inv p e pi out stack end_ w1 :
  setup p e pi (fresh_world p out) = (Ok (stack, end_), w1) →
  stdout w1 = out
  ∧ program (runner w1) = p
  ∧ proof_mode (runner w1) = false
  ∧ run_ended (runner w1) = false
  ∧ original_steps (runner w1) = None
  ∧ final_pc (runner w1) = Some end_.
Proof.
  rewrite setup_eq. cbv zeta.
  destruct (forallb _ _); [|done].
  destruct (identifiers p !! _); [|done].
  by intros [= <- <- <-].
Qed.

Lemma finalize_after_drive fuel end_ w1 w2 v :
  run_until_pc fuel end_ w1 = (Ok tt, w2) →
  vm (runner w2) = Some v →
  proof_mode (runner w1) = false →
  run_ended (runner w1) = false →
  ∃ lines,
    run_and_finalize fuel end_ w1
    = (Ok tt,
       mk_world (set_run_ended true
                   (set_original_steps (Some (current_step v)) (runner w2)))
                (stdout w1 ++ lines)).
Proof.
  intros Hdrive Hv Hproof Hended.
  destruct (run_until_pc_spec _ _ _ _ _ Hdrive) as (Hs & Hout & _).
  rewrite (run_and_finalize_recorded _ _ _ _ _ Hdrive Hv).
  unfold mbind at 1, M_bind at 1.
  rewrite end_run_unpadded by (cbn; rewrite Hs; cbn; by rewrite Hproof).
  cbn [runner set_original_steps run_ended].
  assert (run_ended (runner w2) = false) as -> by (rewrite Hs; cbn; done).
  cbv iota beta. cbn [runner stdout].
  destruct (print_output_runner
              (mk_world (set_run_ended true
                           (set_original_steps (Some (current_step v)) (runner w2)))
                        (stdout w2))) as [lines ->].
  exists lines. cbn [runner stdout]. by rewrite Hout.
Qed.

(** X2: a completed call has ended the run exactly once, still holds the
    program it was given, and its recorded step count is the number of steps
    the VM has taken in all: nothing steps the VM after the driver. *)
Theorem completed_call_counts (fuel : nat) (p : Program) (entrypoint : string)
    (program_input : option PyVal) (out : list string) (w' : World) :
  run_program_entrypoint fuel p entrypoint program_input out = (Ok tt, w') →
  ∃ v lines,
    vm (runner w') = Some v
    ∧ original_steps (runner w') = Some (current_step v)
    ∧ run_ended (runner w') = true
    ∧ program (runner w') = p
    ∧ stdout w' = out ++ lines.
Proof.
  intros Hrun. apply run_ok_inv in Hrun.
  apply bind_inv_ok in Hrun as ([stack end_] & w1 & Hsetup & Hrun).
  apply setup_ok_inv in Hsetup as (Hout & Hprog & Hproof & Hended & _ & _).
  destruct (run_until_pc fuel end_ w1) as [r2 w2] eqn:Hdrive.
  assert (r2 = Ok tt) as ->.
  { unfold run_and_finalize, mbind at 1, M_bind at 1 in Hrun. rewrite Hdrive in Hrun.
    by destruct r2 as [[]|?|]. }
  destruct (run_until_pc_spec _ _ _ _ _ Hdrive) as (Hs & _ & Hpc).
  destruct (Hpc eq_refl) as (v & Hv & _).
  destruct (finalize_after_drive _ _ _ _ _ Hdrive Hv Hproof Hended) as [lines Hfin].
  rewrite Hfin in Hrun. injection Hrun as <-.
  exists v, lines. cbn. split; [done|]. split; [done|]. split; [done|].
  split; [|by rewrite Hout]. rewrite Hs. cbn. done.
Qed.

Lemma reloc_add_add a (n m : Z) : reloc_add (reloc_add a n) m = reloc_add a (n + m).
Proof. unfold reloc_add. cbn. f_equal. lia. Qed.

(** X3: the stack is in memory, word for word, from the base of the
    execution segment on; the cell below the initial frame pointer holds
    the end sentinel (the return address of the call) and the cell below
    that one the return frame pointer, a different address. *)
Theorem return_frame_in_memory (p : Program) (entrypoint : string)
    (program_input : option PyVal) (out : list string) (entry : Z) :
  identifiers p !! ["__main__"; entrypoint] = Some entry →
  Forall (λ b, is_Some (dict_get (b +:+ "_builtin") (layout_builtin_runners "small" p false)))
         (builtins p) →
  ∃ stack end_ w' eb top return_fp,
    setup p entrypoint program_input (fresh_world p out) = (Ok (stack, end_), w')
    ∧ execution_base (runner w') = Some eb
    ∧ initial_fp (runner w') = Some top
    ∧ (∀ i : nat, (i < length stack)%nat →
         memory (runner w') !! reloc_add eb (Z.of_nat i) = stack !! i)
    ∧ memory (runner w') !! reloc_add top (-1) = Some (Reloc end_)
    ∧ memory (runner w') !! reloc_add top (-2) = Some (Reloc return_fp)
    ∧ return_fp ≠ end_.
Proof.
  intros Hentry Hall.
  rewrite setup_eq. cbv zeta.
  rewrite (segmented_has_runners _ Hall), Hentry.
  set (n := n_segments (segments (segmented_runner p))).
  set (words := concat _).
  eexists _, _, _, _, _, (mk_reloc n 0). split; [reflexivity|].
  cbn [runner execution_base initial_fp memory].
  split; [reflexivity|]. split; [reflexivity|].
  split; [intros i Hi; by apply load_mem_lookup|].
  rewrite !reloc_add_add, length_app. cbn [length].
  split; [|split].
  - replace (Z.of_nat (length words + 2) + -1) with (Z.of_nat (length words + 1)) by lia.
    rewrite load_mem_lookup by (rewrite length_app; cbn; lia).
    rewrite lookup_app_r by lia.
    by replace (length words + 1 - length words)%nat with 1%nat by lia.
  - replace (Z.of_nat (length words + 2) + -2) with (Z.of_nat (length words)) by lia.
    rewrite load_mem_lookup by (rewrite length_app; cbn; lia).
    rewrite lookup_app_r by lia.
    by replace (length words - length words)%nat with 0%nat by lia.
  - intros [= E]. lia.
Qed.

Lemma initialize_builtin_segments_grows (brs : list (string * BuiltinRunner)) :
  (∀ b s, n_segments s ≤ n_segments (builtin_initialize_segments b s).2) →
  ∀ s, n_segments s ≤ n_segments (initialize_builtin_segments brs s).2.
Proof.
  intros Hgrow. induction brs as [|[k b] brs IH]; intros s; cbn; [lia|].
  specialize (Hgrow b s).
  destruct (builtin_initialize_segments b s) as [b' s'].
  specialize (IH s').
  destruct (initialize_builtin_segments brs s') as [rest' s'']. cbn in *. lia.
Qed.

(** X4: with builtin runners that only ever add segments, the return frame
    pointer and the end sentinel are the bases of two segments that differ
    from the program and execution segments and hold no cell when the VM
    starts: at the end sentinel there is nothing to execute. *)
Theorem sentinel_segments_are_empty (p : Program) (entrypoint : string)
    (program_input : option PyVal) (out : list string) (entry : Z) :
  (∀ b s, n_segments s ≤ n_segments (builtin_initialize_segments b s).2) →
  identifiers p !! ["__main__"; entrypoint] = Some entry →
  Forall (λ b, is_Some (dict_get (b +:+ "_builtin") (layout_builtin_runners "small" p false)))
         (builtins p) →
  ∃ stack return_fp end_ w' pb eb,
    setup p entrypoint program_input (fresh_world p out)
    = (Ok (stack ++ [Reloc return_fp; Reloc end_], end_), w')
    ∧ program_base (runner w') = Some pb
    ∧ execution_base (runner w') = Some eb
    ∧ segment_index return_fp ≠ segment_index pb
    ∧ segment_index return_fp ≠ segment_index eb
    ∧ segment_index end_ ≠ segment_index pb
    ∧ segment_index end_ ≠ segment_index eb
    ∧ (∀ a, (segment_index a = segment_index return_fp
             ∨ segment_index a = segment_index end_) →
            memory (runner w') !! a = None).
Proof.
  intros Hgrow Hentry Hall.
  rewrite setup_eq. cbv zeta.
  rewrite (segmented_has_runners _ Hall), Hentry.
  set (n := n_segments (segments (segmented_runner p))).
  assert (2 ≤ n) as Hn.
  { subst n. unfold segmented_runner. cbn [segments].
    apply (initialize_builtin_segments_grows _ Hgrow (mk_segments 2)). }
  eexists _, _, _, _, _, _. split; [reflexivity|].
  cbn [runner program_base execution_base memory segment_index].
  split; [reflexivity|]. split; [reflexivity|].
  do 4 (split; [cbn; lia|]).
  intros a Ha.
  rewrite !load_mem_other_segment by (cbn; lia).
  apply lookup_empty.
Qed.

End HarnessExtras.

(** * Further properties of the statistics script *)

Lemma occurrences_cons k r (df : DataFrame) :
  occurrences k (r :: df)
  = ((if decide (subset_key r = k) then 1 else 0) + occurrences k df)%nat.
Proof. unfold occurrences. rewrite filter_cons. by destruct (decide _). Qed.

Lemma occurrences_app k (df1 df2 : DataFrame) :
  occurrences k (df1 ++ df2) = (occurrences k df1 + occurrences k df2)%nat.
Proof. unfold occurrences. by rewrite filter_app, length_app. Qed.

Lemma occurrences_elem r (df : DataFrame) :
  r ∈ df → (1 ≤ occurrences (subset_key r) df)%nat.
Proof.
  intros (l1 & l2 & ->)%list_elem_of_split.
  rewrite occurrences_app, occurrences_cons, decide_True by done. lia.
Qed.

Lemma occurrences_absent k (df : DataFrame) :
  k ∉ map subset_key df → occurrences k df = 0%nat.
Proof.
  induction df as [|r df IH]; [done|]. cbn [map]. intros Hk.
  apply not_elem_of_cons in Hk as [Hne Hk].
  rewrite occurrences_cons, decide_False by done. by rewrite IH.
Qed.

Lemma occurrences_NoDup r (df : DataFrame) :
  NoDup (map subset_key df) → r ∈ df → occurrences (subset_key r) df = 1%nat.
Proof.
  induction df as [|a df IH]; cbn [map]; [by intros _ ?%elem_of_nil|].
  intros [Ha Hnd]%NoDup_cons [->|Hin]%elem_of_cons.
  - rewrite occurrences_cons, decide_True by done.
    by rewrite occurrences_absent.
  - rewrite occurrences_cons, decide_False, IH; [done..|].
    intros E. apply Ha. rewrite E. apply list_elem_of_In, in_map, list_elem_of_In, Hin.
Qed.

Lemma filter_all {A : Type} (P : A → Prop) `{∀ x, Decision (P x)} (l : list A) :
  (∀ x, x ∈ l → P x) → filter P l = l.
Proof.
  induction l as [|x l IH]; [done|]. intros Hall.
  rewrite filter_cons, decide_True by (apply Hall; left).
  f_equal. apply IH. intros y Hy. apply Hall. by right.
Qed.

Lemma unique_keys_from (l2 : DataFrame) : ∀ l1,
  NoDup (map subset_key
           (filter (λ r, occurrences (subset_key r) (l1 ++ l2) = 1%nat) l2)).
Proof.
  induction l2 as [|r l2 IH]; intros l1; [constructor|].
  rewrite filter_cons.
  specialize (IH (l1 ++ [r])). rewrite <- app_assoc in IH. cbn [app] in IH.
  destruct (decide _) as [H1|_]; [|exact IH].
  cbn [map]. apply NoDup_cons. split; [|exact IH].
  intros Hin. apply list_elem_of_In, in_map_iff in Hin as (r' & Hkey & Hr').
  apply list_elem_of_In, list_elem_of_filter in Hr' as [_ Hr'].
  apply occurrences_elem in Hr'. rewrite Hkey in Hr'.
  rewrite occurrences_app, occurrences_cons, decide_True in H1 by done. lia.
Qed.

Lemma drop_duplicates_unique_keys (df : DataFrame) :
  NoDup (map subset_key (drop_duplicates df)).
Proof. apply (unique_keys_from df []). Qed.

(** X5: the rows that reach [set_index] have pairwise different
    (head_branch, test) pairs, appear in the order of the concatenated data,
    and dropping duplicates again changes nothing. *)
Theorem all_resources_index_unique (frames : list DataFrame) (df : DataFrame) :
  all_resources frames = inr df →
  NoDup (map subset_key df)
  ∧ sublist df (concat frames)
  ∧ drop_duplicates df = df.
Proof.
  unfold all_resources, pd_concat.
  destruct frames as [|f frames]; [done|]. intros [= <-].
  split; [apply drop_duplicates_unique_keys|].
  split; [apply sublist_filter|].
  unfold drop_duplicates at 1. apply filter_all. intros r Hr.
  by apply occurrences_NoDup; [apply drop_duplicates_unique_keys|].
Qed.

Lemma read_resources_inr read_csv artifacts frames :
  read_resources read_csv artifacts = inr frames →
  Forall (λ b, is_Some (read_csv b)) artifacts
  ∧ frames = map (λ b, assign_head_branch b (default [] (read_csv b))) artifacts.
Proof.
  revert frames. induction artifacts as [|b artifacts IH]; intros frames; cbn.
  - by intros [= <-].
  - destruct (read_csv b) as [csv|] eqn:Eb; [|done].
    destruct (read_resources read_csv artifacts) as [e|fs]; [done|].
    intros [= <-]. destruct (IH fs eq_refl) as [Hall ->].
    split; [constructor; [by eexists|done]|]. done.
Qed.

Lemma lookup_list_to_map_diag {V : Type} (g : string → V) (bs : list string) (b : string) :
  (list_to_map (map (λ b, (b, g b)) bs) : gmap string V) !! b
  = if decide (b ∈ bs) then Some (g b) else None.
Proof.
  induction bs as [|a bs IH]; cbn [map].
  - rewrite list_to_map_nil, lookup_empty. by rewrite decide_False by apply not_elem_of_nil.
  - rewrite list_to_map_cons. destruct (decide (a = b)) as [->|Hne].
    + rewrite lookup_insert_eq. by rewrite decide_True by left.
    + rewrite lookup_insert_ne, IH by done.
      destruct (decide (b ∈ bs)) as [Hin|Hin].
      * by rewrite decide_True by (by right).
      * rewrite decide_False; [done|]. by intros [?|?]%elem_of_cons.
Qed.

Lemma filter_nil_iff {A : Type} (P : A → Prop) `{∀ x, Decision (P x)} (l : list A) :
  filter P l = [] ↔ ∀ x, x ∈ l → ¬ P x.
Proof.
  split.
  - intros E x Hx HP. assert (x ∈ filter P l) as Hin by by apply list_elem_of_filter.
    rewrite E in Hin. by apply elem_of_nil in Hin.
  - intros Hall. destruct (filter P l) as [|x rows] eqn:E; [done|].
    assert (x ∈ filter P l) as [HP Hx]%list_elem_of_filter by (rewrite E; left).
    by destruct (Hall x Hx).
Qed.

Lemma average_summary_lookup (df : DataFrame) (b : string) :
  average_summary df !! b
  = match filter (λ r, head_branch r = b) df with
    | [] => None
    | _ :: _ => Some (group_means (filter (λ r, head_branch r = b) df))
    end.
Proof.
  unfold average_summary.
  rewrite (lookup_list_to_map_diag
             (λ b, group_means (filter (λ r, head_branch r = b) df))).
  destruct (filter (λ r, head_branch r = b) df) as [|r rows] eqn:E.
  - rewrite decide_False; [done|]. intros Hin.
    apply list_elem_of_In, in_map_iff in Hin as (r & Hb & Hr).
    apply list_elem_of_In in Hr.
    by apply (proj1 (filter_nil_iff _ _) E r).
  - rewrite decide_True; [done|].
    assert (r ∈ filter (λ r, head_branch r = b) df) as [Hb Hr]%list_elem_of_filter
      by (rewrite E; left).
    rewrite <- Hb. by apply list_elem_of_In, in_map, list_elem_of_In.
Qed.

Lemma occurrences_filter_branch (r : Row) (df : DataFrame) :
  occurrences (subset_key r) (filter (λ r', head_branch r' = head_branch r) df)
  = occurrences (subset_key r) df.
Proof.
  induction df as [|a df IH]; [done|].
  rewrite filter_cons, (occurrences_cons _ a df).
  destruct (decide (head_branch a = head_branch r)) as [Hb|Hb].
  - by rewrite occurrences_cons, IH.
  - rewrite IH, decide_False; [done|]. unfold subset_key. congruence.
Qed.

Lemma filter_branch_drop_duplicates (b : string) (df : DataFrame) :
  filter (λ r, head_branch r = b) (drop_duplicates df)
  = drop_duplicates (filter (λ r, head_branch r = b) df).
Proof.
  unfold drop_duplicates. rewrite !list_filter_filter.
  apply list_filter_iff. intros r. split.
  - intros [Hb H1]. split; [|done]. by rewrite <- Hb, occurrences_filter_branch.
  - intros [H1 Hb]. split; [done|]. by rewrite <- Hb, occurrences_filter_branch in H1.
Qed.

(** X7: the means reported for a branch depend on the rows of that branch
    only: two data sets with the same rows for a branch report the same
    means for it, whatever the other branches hold. *)
Theorem branch_means_independent (frames frames' : list DataFrame)
    (df df' : DataFrame) (b : string) :
  all_resources frames = inr df →
  all_resources frames' = inr df' →
  filter (λ r, head_branch r = b) (concat frames)
  = filter (λ r, head_branch r = b) (concat frames') →
  average_summary df !! b = average_summary df' !! b.
Proof.
  unfold all_resources, pd_concat.
  destruct frames as [|f frames]; [done|].
  destruct frames' as [|f' frames']; [done|].
  intros [= <-] [= <-] Hsame.
  rewrite !average_summary_lookup, !filter_branch_drop_duplicates.
  cbn [concat] in Hsame |- *. by rewrite Hsame.
Qed.

Lemma assign_head_branch_elem (b : string) (csv : list CsvRow) (r : Row) :
  r ∈ assign_head_branch b csv → head_branch r = b.
Proof.
  unfold assign_head_branch.
  intros (c & <- & _)%list_elem_of_In%in_map_iff. reflexivity.
Qed.

Lemma concat_frames_elem (F : string → DataFrame) (branches : list string) (r : Row) :
  (∀ a r', r' ∈ F a → head_branch r' = a) →
  r ∈ concat (map F branches) → r ∈ F (head_branch r) ∧ head_branch r ∈ branches.
Proof.
  intros HF. induction branches as [|a branches IH]; cbn; [by intros ?%elem_of_nil|].
  intros [Hin|Hin]%elem_of_app.
  - rewrite (HF a r Hin). split; [done|left].
  - destruct (IH Hin). split; [done|by right].
Qed.

Lemma concat_frames_twice (F : string → DataFrame) (l1 l2 l3 : list string) (b : string)
    (extra : list DataFrame) :
  concat (map F (l1 ++ b :: l2 ++ b :: l3) ++ extra)
  = concat (map F l1) ++ F b ++ concat (map F l2) ++ F b
    ++ concat (map F l3) ++ concat extra.
Proof.
  rewrite concat_app, map_app, concat_app. cbn [map concat].
  rewrite map_app, concat_app. cbn [map concat].
  by rewrite <- !app_assoc.
Qed.

Lemma all_resources_inr (frames : list DataFrame) (df : DataFrame) :
  all_resources frames = inr df ↔ frames ≠ [] ∧ df = drop_duplicates (concat frames).
Proof.
  unfold all_resources, pd_concat. destruct frames as [|f frames].
  - split; [done|]. by intros [? _].
  - split; [by intros [= <-]|]. by intros [_ ->].
Qed.

(** X8: when the same branch comes twice among the artifacts, its file is
    read twice, every test of the branch is a duplicate, and the branch is
    absent from the summary. *)
Theorem repeated_artifact_is_dropped (artifacts l1 l2 l3 : list string) (b : string)
    (read_csv : string → option (list CsvRow)) (local_csv : option (list CsvRow))
    (summary : gmap string (list Q)) :
  artifacts = l1 ++ b :: l2 ++ b :: l3 →
  b ≠ "local" →
  main artifacts read_csv local_csv = inr summary →
  summary !! b = None.
Proof.
  intros -> Hb. unfold main, resources.
  destruct (read_resources read_csv _) as [e|frames0] eqn:Er; [done|].
  apply read_resources_inr in Er as [_ ->].
  set (F := λ a, assign_head_branch a (default [] (read_csv a))).
  set (extra := match local_csv with
                | Some csv => [assign_head_branch "local" csv]
                | None => []
                end).
  assert (∃ frames, (match local_csv with
                     | Some csv => inr (map F (l1 ++ b :: l2 ++ b :: l3)
                                        ++ [assign_head_branch "local" csv])
                     | None => inr (map F (l1 ++ b :: l2 ++ b :: l3))
                     end : ScriptError + list DataFrame) = inr frames
                    ∧ concat frames
                      = concat (map F l1) ++ F b ++ concat (map F l2) ++ F b
                        ++ concat (map F l3) ++ concat extra) as (frames & -> & Hall).
  { subst extra. destruct local_csv; eexists; (split; [reflexivity|]).
    - apply concat_frames_twice.
    - rewrite <- (app_nil_r (map F _)). apply concat_frames_twice. }
  destruct (all_resources frames) as [e|df] eqn:Ea; [done|].
  apply all_resources_inr in Ea as [_ ->].
  intros [= <-]. rewrite average_summary_lookup.
  assert (filter (λ r, head_branch r = b) (drop_duplicates (concat frames)) = [])
    as ->; [|done].
  apply filter_nil_iff. intros r Hr Hrb.
  apply list_elem_of_filter in Hr as [H1 Hr].
  assert (r ∈ F b) as HrF.
  { assert (∀ a r', r' ∈ F a → head_branch r' = a) as HF
      by (intros a r'; apply assign_head_branch_elem).
    rewrite Hall in Hr.
    repeat (apply elem_of_app in Hr as [Hr|Hr]); try done.
    - apply (concat_frames_elem F) in Hr as [Hr _]; [by rewrite Hrb in Hr|done].
    - apply (concat_frames_elem F) in Hr as [Hr _]; [by rewrite Hrb in Hr|done].
    - apply (concat_frames_elem F) in Hr as [Hr _]; [by rewrite Hrb in Hr|done].
    - subst extra. destruct local_csv as [csv|]; cbn in Hr; [|by apply elem_of_nil in Hr].
      rewrite app_nil_r in Hr. apply assign_head_branch_elem in Hr. congruence. }
  apply occurrences_elem in HrF.
  rewrite Hall, !occurrences_app in H1. lia.
Qed.

Lemma subset_key_elem (k : string * string) (df : DataFrame) :
  k ∈ map subset_key df ↔ ∃ r, r ∈ df ∧ subset_key r = k.
Proof.
  rewrite list_elem_of_In, in_map_iff. split.
  - intros (r & Hk & Hr). exists r. by rewrite list_elem_of_In.
  - intros (r & Hr & Hk). exists r. by rewrite <- list_elem_of_In.
Qed.

Lemma assign_head_branch_keys_NoDup (b : string) (csv : list CsvRow) :
  NoDup (map csv_test csv) → NoDup (map subset_key (assign_head_branch b csv)).
Proof.
  induction csv as [|c csv IH]; cbn [map assign_head_branch]; [constructor|].
  intros [Hc Hnd]%NoDup_cons. apply NoDup_cons. split; [|by apply IH].
  intros (r & Hr & Hk)%subset_key_elem. apply Hc.
  apply list_elem_of_In, in_map_iff in Hr as (c' & <- & Hc').
  injection Hk as <-. by apply list_elem_of_In, in_map.
Qed.

Lemma concat_frames_keys_NoDup (F : string → DataFrame) (branches : list string) :
  (∀ a r, r ∈ F a → head_branch r = a) →
  NoDup branches →
  (∀ a, a ∈ branches → NoDup (map subset_key (F a))) →
  NoDup (map subset_key (concat (map F branches))).
Proof.
  intros HF. induction branches as [|a branches IH]; cbn [map concat]; [constructor|].
  intros [Ha Hnd]%NoDup_cons Hframes. rewrite map_app. apply NoDup_app.
  split; [apply Hframes; left|]. split; [|apply IH; [done|intros; apply Hframes; by right]].
  intros k (r & Hr & <-)%subset_key_elem (r' & Hr' & Hk)%subset_key_elem.
  apply (concat_frames_elem F) in Hr' as [_ Hin]; [|done].
  apply HF in Hr. injection Hk as Hb _. congruence.
Qed.

(** X9: in the intended situation nothing is dropped: when the artifacts name
    pairwise different branches, none of them called like the local run
    when there is one, and no file repeats a test name, [main] averages all
    the rows it read. *)
Theorem distinct_tests_all_kept (artifacts : list string)
    (read_csv : string → option (list CsvRow)) (local_csv : option (list CsvRow))
    (summary : gmap string (list Q)) :
  main artifacts read_csv local_csv = inr summary →
  NoDup artifacts →
  (is_Some local_csv → "local" ∉ artifacts) →
  (∀ b csv, b ∈ artifacts → read_csv b = Some csv → NoDup (map csv_test csv)) →
  (∀ csv, local_csv = Some csv → NoDup (map csv_test csv)) →
  ∃ frames,
    resources artifacts read_csv local_csv = inr frames
    ∧ all_resources frames = inr (concat frames)
    ∧ summary = average_summary (concat frames).
Proof.
  unfold main. intros Hmain Hnd Hlocal Hcsv Hlcsv.
  destruct (resources artifacts read_csv local_csv) as [e|frames] eqn:Er; [done|].
  destruct (all_resources frames) as [e|df] eqn:Ea; [done|].
  injection Hmain as <-.
  apply all_resources_inr in Ea as [Hne ->].
  assert (NoDup (map subset_key (concat frames))) as Hkeys.
  { unfold resources in Er.
    destruct (read_resources read_csv artifacts) as [e|frames0] eqn:Err; [done|].
    apply read_resources_inr in Err as [Hread ->].
    set (F := λ a, assign_head_branch a (default [] (read_csv a))) in *.
    assert (∀ a r, r ∈ F a → head_branch r = a) as HF
      by (intros a r; apply assign_head_branch_elem).
    assert (NoDup (map subset_key (concat (map F artifacts)))) as Harts.
    { apply concat_frames_keys_NoDup; [done..|].
      intros a Ha. apply assign_head_branch_keys_NoDup.
      rewrite Forall_forall in Hread. destruct (Hread a Ha) as [csv Hcsv'].
      rewrite Hcsv'. by apply (Hcsv a). }
    destruct local_csv as [csv|]; injection Er as <-; [|done].
    rewrite concat_app, map_app. cbn [concat]. rewrite app_nil_r.
    apply NoDup_app. split; [done|].
    split; [|by apply assign_head_branch_keys_NoDup, Hlcsv].
    intros k (r & Hr & <-)%subset_key_elem (r' & Hr' & Hk)%subset_key_elem.
    apply (concat_frames_elem F) in Hr as [_ Hin]; [|done].
    apply assign_head_branch_elem in Hr'. injection Hk as Hb _.
    apply Hlocal; [by eexists|]. congruence. }
  exists frames. split; [done|]. 
  assert (drop_duplicates (concat frames) = concat frames) as ->.
  { apply filter_all. intros r Hr. by apply occurrences_NoDup. }
  split; [|done]. apply all_resources_inr. split; [done|].
  symmetry. apply filter_all. intros r Hr. by apply occurrences_NoDup.
Qed.

(** X10: a branch has a line in the summary only if a non-empty file was
    read for it: it is the branch of an artifact, or it is "local" and the
    local file exists. *)
Theorem summary_branches (artifacts : list string)
    (read_csv : string → option (list CsvRow)) (local_csv : option (list CsvRow))
    (summary : gmap string (list Q)) (b : string) :
  main artifacts read_csv local_csv = inr summary →
  is_Some (summary !! b) →
  (b ∈ artifacts ∧ ∃ csv, read_csv b = Some csv ∧ csv ≠ [])
  ∨ (b = "local" ∧ ∃ csv, local_csv = Some csv ∧ csv ≠ []).
Proof.
  unfold main, resources.
  destruct (read_resources read_csv artifacts) as [e|frames0] eqn:Er; [done|].
  apply read_resources_inr in Er as [Hread ->].
  set (F := λ a, assign_head_branch a (default [] (read_csv a))).
  set (frames := match local_csv with Some _ => _ | None => _ end).
  assert (∃ fs, frames = inr fs
                ∧ concat fs = concat (map F artifacts)
                              ++ match local_csv with
                                 | Some csv => assign_head_branch "local" csv
                                 | None => []
                                 end) as (fs & -> & Hall).
  { subst frames. destruct local_csv; eexists; (split; [reflexivity|]).
    - rewrite concat_app. cbn. by rewrite app_nil_r.
    - by rewrite app_nil_r. }
  destruct (all_resources fs) as [e|df] eqn:Ea; [done|].
  apply all_resources_inr in Ea as [_ ->].
  intros [= <-]. rewrite average_summary_lookup.
  destruct (filter _ _) as [|r rows] eqn:E; [by intros [? ?]|]. intros _.
  assert (r ∈ filter (λ r, head_branch r = b) (drop_duplicates (concat fs)))
    as [Hb [_ Hr]%list_elem_of_filter]%list_elem_of_filter by (rewrite E; left).
  rewrite Hall in Hr. apply elem_of_app in Hr as [Hr|Hr].
  - left. apply (concat_frames_elem F) in Hr as [Hr Hin];
      [|intros a r'; apply assign_head_branch_elem].
    rewrite Hb in Hr, Hin. split; [done|].
    rewrite Forall_forall in Hread. destruct (Hread b Hin) as [csv Hcsv].
    exists csv. split; [done|]. intros ->.
    subst F. cbn in Hr. rewrite Hcsv in Hr. by apply elem_of_nil in Hr.
  - right. destruct local_csv as [csv|]; [|by apply elem_of_nil in Hr].
    split; [by rewrite <- Hb; apply (assign_head_branch_elem _ csv)|].
    exists csv. split; [done|]. intros ->. by apply elem_of_nil in Hr.
Qed.

(** * The further properties, on examples *)

Lemma completed_call_counts_witness :
  let outcome := @run_program_entrypoint simple_vm 5 range_check_program "main" None [] in
  outcome = (Ok tt, outcome.2)
  ∧ ∃ v lines,
      vm (runner outcome.2) = Some v
      ∧ original_steps (runner outcome.2) = Some (current_step v)
      ∧ run_ended (runner outcome.2) = true
      ∧ program (runner outcome.2) = range_check_program
      ∧ stdout outcome.2 = [] ++ lines.
Proof.
  intros outcome.
  assert (outcome = (Ok tt, outcome.2)) as Hrun by (vm_compute; reflexivity).
  split; [exact Hrun|].
  exact (@completed_call_counts simple_vm 5 range_check_program "main" None []
           outcome.2 Hrun).
Defined.

Lemma return_frame_in_memory_witness :
  (identifiers range_check_program !! ["__main__"; "main"] = Some 0
   ∧ Forall (λ b, is_Some (dict_get (b +:+ "_builtin")
                             (simple_layout_builtin_runners "small" range_check_program false)))
            (builtins range_check_program))
  ∧ ∃ stack end_ w' eb top return_fp,
      @setup simple_vm range_check_program "main" None
             (@fresh_world simple_vm range_check_program []) = (Ok (stack, end_), w')
      ∧ execution_base (runner w') = Some eb
      ∧ initial_fp (runner w') = Some top
      ∧ (∀ i : nat, (i < length stack)%nat →
           memory (runner w') !! reloc_add eb (Z.of_nat i) = stack !! i)
      ∧ memory (runner w') !! reloc_add top (-1) = Some (Reloc end_)
      ∧ memory (runner w') !! reloc_add top (-2) = Some (Reloc return_fp)
      ∧ return_fp ≠ end_.
Proof.
  assert (identifiers range_check_program !! ["__main__"; "main"] = Some 0) as Hentry
    by (vm_compute; reflexivity).
  assert (Forall (λ b, is_Some (dict_get (b +:+ "_builtin")
                     (simple_layout_builtin_runners "small" range_check_program false)))
                 (builtins range_check_program)) as Hall
    by (repeat constructor; vm_compute; eauto).
  split; [split; [exact Hentry|exact Hall]|].
  exact (@return_frame_in_memory simple_vm range_check_program "main" None [] 0
           Hentry Hall).
Defined.

Lemma sentinel_segments_are_empty_witness :
  ((∀ b s, n_segments s ≤ n_segments (simple_initialize_segments b s).2)
   ∧ identifiers range_check_program !! ["__main__"; "main"] = Some 0
   ∧ Forall (λ b, is_Some (dict_get (b +:+ "_builtin")
                             (simple_layout_builtin_runners "small" range_check_program false)))
            (builtins range_check_program))
  ∧ ∃ stack return_fp end_ w' pb eb,
      @setup simple_vm range_check_program "main" None
             (@fresh_world simple_vm range_check_program [])
      = (Ok (stack ++ [Reloc return_fp; Reloc end_], end_), w')
      ∧ program_base (runner w') = Some pb
      ∧ execution_base (runner w') = Some eb
      ∧ segment_index return_fp ≠ segment_index pb
      ∧ segment_index return_fp ≠ segment_index eb
      ∧ segment_index end_ ≠ segment_index pb
      ∧ segment_index end_ ≠ segment_index eb
      ∧ (∀ a, (segment_index a = segment_index return_fp
               ∨ segment_index a = segment_index end_) →
              memory (runner w') !! a = None).
Proof.
  assert (∀ b s, n_segments s ≤ n_segments (simple_initialize_segments b s).2) as Hgrow
    by (intros b s; cbn; lia).
  assert (identifiers range_check_program !! ["__main__"; "main"] = Some 0) as Hentry
    by (vm_compute; reflexivity).
  assert (Forall (λ b, is_Some (dict_get (b +:+ "_builtin")
                     (simple_layout_builtin_runners "small" range_check_program false)))
                 (builtins range_check_program)) as Hall
    by (repeat constructor; vm_compute; eauto).
  split; [split; [exact Hgrow|split; [exact Hentry|exact Hall]]|].
  exact (@sentinel_segments_are_empty simple_vm range_check_program "main" None [] 0
           Hgrow Hentry Hall).
Defined.

Lemma all_resources_index_unique_witness :
  let frames := [assign_head_branch "main" [mk_csv_row "test_add" [100; 7];
                                            mk_csv_row "test_mul" [300; 9];
                                            mk_csv_row "test_add" [999; 1]];
                 assign_head_branch "local" example_local_csv] in
  let df := [mk_row "main" "test_mul" [300; 9]; mk_row "local" "test_add" [150; 8];
             mk_row "local" "test_mul" [301; 9]] in
  all_resources frames = inr df
  ∧ NoDup (map subset_key df)
  ∧ sublist df (concat frames)
  ∧ drop_duplicates df = df.
Proof.
  intros frames df.
  assert (all_resources frames = inr df) as Hall by reflexivity.
  split; [exact Hall|].
  exact (all_resources_index_unique frames df Hall).
Defined.

Lemma branch_means_independent_witness :
  let frames := [[mk_row "main" "test_add" [100; 7]]; [mk_row "local" "test_add" [150; 8]]] in
  let frames' := [[mk_row "main" "test_add" [100; 7]]; [mk_row "local" "test_add" [990; 1];
                                                       mk_row "dev" "test_add" [5; 5]]] in
  (all_resources frames = inr (concat frames)
   ∧ all_resources frames' = inr (concat frames')
   ∧ filter (λ r, head_branch r = "main") (concat frames)
     = filter (λ r, head_branch r = "main") (concat frames'))
  ∧ average_summary (concat frames) !! "main" = average_summary (concat frames') !! "main".
Proof.
  intros frames frames'.
  assert (all_resources frames = inr (concat frames)) as H1 by reflexivity.
  assert (all_resources frames' = inr (concat frames')) as H2 by reflexivity.
  assert (filter (λ r, head_branch r = "main") (concat frames)
          = filter (λ r, head_branch r = "main") (concat frames')) as H3 by reflexivity.
  split; [split; [exact H1|split; [exact H2|exact H3]]|].
  exact (branch_means_independent frames frames' _ _ "main" H1 H2 H3).
Defined.

Lemma repeated_artifact_is_dropped_witness :
  let summary := average_summary (assign_head_branch "local" example_local_csv) in
  (["main"; "main"] = [] ++ "main" :: [] ++ "main" :: []
   ∧ "main" ≠ "local"
   ∧ main ["main"; "main"] example_csv (Some example_local_csv) = inr summary)
  ∧ summary !! "main" = None.
Proof.
  intros summary.
  assert (["main"; "main"] = [] ++ "main" :: [] ++ "main" :: []) as H1 by reflexivity.
  assert ("main" ≠ "local") as H2 by discriminate.
  assert (main ["main"; "main"] example_csv (Some example_local_csv) = inr summary) as H3
    by (vm_compute; reflexivity).
  split; [split; [exact H1|split; [exact H2|exact H3]]|].
  exact (repeated_artifact_is_dropped _ [] [] [] "main" example_csv
           (Some example_local_csv) summary H1 H2 H3).
Defined.

Lemma distinct_tests_all_kept_witness :
  let read_csv := λ b : string, Some example_local_csv in
  let frames := [assign_head_branch "main" example_local_csv;
                 assign_head_branch "dev" example_local_csv] in
  (main ["main"; "dev"] read_csv None = inr (average_summary (concat frames))
   ∧ NoDup ["main"; "dev"]
   ∧ (is_Some (@None (list CsvRow)) → "local" ∉ ["main"; "dev"])
   ∧ (∀ b csv, b ∈ ["main"; "dev"] → read_csv b = Some csv → NoDup (map csv_test csv))
   ∧ (∀ csv, @None (list CsvRow) = Some csv → NoDup (map csv_test csv)))
  ∧ ∃ frames0,
      resources ["main"; "dev"] read_csv None = inr frames0
      ∧ all_resources frames0 = inr (concat frames0)
      ∧ average_summary (concat frames) = average_summary (concat frames0).
Proof.
  intros read_csv frames.
  assert (main ["main"; "dev"] read_csv None = inr (average_summary (concat frames)))
    as H1 by (vm_compute; reflexivity).
  assert (NoDup ["main"; "dev"]) as H2
    by (apply (bool_decide_unpack _); vm_compute; exact I).
  assert (is_Some (@None (list CsvRow)) → "local" ∉ ["main"; "dev"]) as H3
    by (intros [? ?]; discriminate).
  assert (∀ b csv, b ∈ ["main"; "dev"] → read_csv b = Some csv → NoDup (map csv_test csv))
    as H4.
  { intros b csv _ [= <-]. apply (bool_decide_unpack _). vm_compute. exact I. }
  assert (∀ csv, @None (list CsvRow) = Some csv → NoDup (map csv_test csv)) as H5
    by (intros csv; discriminate).
  split; [split; [exact H1|split; [exact H2|split; [exact H3|split; [exact H4|exact H5]]]]|].
  exact (distinct_tests_all_kept ["main"; "dev"] read_csv None _ H1 H2 H3 H4 H5).
Defined.

Lemma summary_branches_witness :
  let summary := average_summary
                   [mk_row "main" "test_mul" [300; 9]; mk_row "local" "test_add" [150; 8];
                    mk_row "local" "test_mul" [301; 9]] in
  (main ["main"] example_csv (Some example_local_csv) = inr summary
   ∧ is_Some (summary !! "local"))
  ∧ (("local" ∈ ["main"] ∧ ∃ csv, example_csv "local" = Some csv ∧ csv ≠ [])
     ∨ ("local" = "local" ∧ ∃ csv, Some example_local_csv = Some csv ∧ csv ≠ [])).
Proof.
  intros summary.
  assert (main ["main"] example_csv (Some example_local_csv) = inr summary) as H1
    by reflexivity.
  assert (is_Some (summary !! "local")) as H2 by (vm_compute; eauto).
  split; [split; [exact H1|exact H2]|].
  exact (summary_branches ["main"] example_csv (Some example_local_csv) summary "local"
           H1 H2).
Defined.
